(** * autologin: the crawl and login spiders of [autologin/spiders.py]

    A shallow embedding of the form-discovery spider ([FormSpider]), of the
    login spider ([LoginSpider]) and of the helpers they share
    ([login_params], [get_login_form], [relative_url], [cookie_dicts],
    [_cookie_tuples]), followed by the properties of the specification that
    they satisfy or miss.

    Python strings are [string]; [None] is [option]'s [None]; a [set] is a
    [gset]; a [dict] read in insertion order is the list of its items; an
    exception is a constructor of [exn] carried by [result]. *)

From Stdlib Require Import String Ascii.
From stdpp Require Import base decidable option list strings gmap.

Local Open Scope string_scope.

(** ** Python values and exceptions *)

Module Py.

(** The exceptions that the modelled code raises or lets through;
    [Error] is an exception of another class, by the name of the class. *)
Inductive exn : Type :=
| ValueError
| KeyError
| TypeError
| CloseSpider (reason : string)
| Error (class_name : string).

Inductive result (A : Type) : Type :=
| Ok (a : A)
| Raise (e : exn).

Arguments Ok {A} a.
Arguments Raise {A} e.

(** Truthiness of a string: [bool(s)]. *)
Definition truthy (s : string) : bool :=
  match s with
  | EmptyString => false
  | String _ _ => true
  end.

(** [x or []] for [x] a list or [None]: an empty list is falsy too. *)
Definition or_empty {A : Type} (x : option (list A)) : list A :=
  match x with
  | Some (a :: l) => a :: l
  | Some [] => []
  | None => []
  end.

(** [str(v)] for [v] a string or [None]. *)
Definition str (v : option string) : string :=
  match v with
  | Some s => s
  | None => "None"
  end.

End Py.

Import Py.

(** ** Cookies *)

Module Cookies.

(** The attributes of a cookie of the jar, as its [__dict__] holds them:
    the five that [_cookie_tuples] reads and the ones it does not. *)
Record Cookie : Type := {
  name : string;
  value : option string;
  domain : string;
  path : string;
  port : option string;
  secure : bool;
  expires : option Z;
  discard : bool;
  comment : option string
}.

(** [c.__dict__]: the same attributes, seen as a dictionary. *)
Definition CookieDict : Type := Cookie.
Definition dict_of (c : Cookie) : CookieDict := c.

Definition CookieTuple : Type :=
  (string * option string * string * string * option string)%type.

(** [cookie_dicts(cookiejar)] *)
Definition cookie_dicts (cookiejar : option (list Cookie))
  : option (list CookieDict) :=
  match cookiejar with
  | None => None
  | Some jar => Some (map dict_of jar)
  end.

(** [_cookie_tuples(cookie_dicts)] *)
Definition _cookie_tuples (cookie_dicts : list CookieDict)
  : list CookieTuple :=
  map (fun c => (name c, value c, domain c, path c, port c)) cookie_dicts.

(** [set(_cookie_tuples(...))] *)
Definition tuple_set (cookie_dicts : list CookieDict) : gset CookieTuple :=
  list_to_set (_cookie_tuples cookie_dicts).

End Cookies.

Import Cookies.

(** ** Strings and URLs: the library functions the spiders call *)

Module Text.

Definition is_upper (c : ascii) : bool :=
  (65 <=? nat_of_ascii c)%nat && (nat_of_ascii c <=? 90)%nat.

Definition lower_char (c : ascii) : ascii :=
  if is_upper c then ascii_of_nat (nat_of_ascii c + 32) else c.

(** [s.lower()], on ASCII text. *)
Fixpoint lower (s : string) : string :=
  match s with
  | EmptyString => EmptyString
  | String c s' => String (lower_char c) (lower s')
  end.

(** [s.startswith(p)] *)
Fixpoint startswith (p s : string) : bool :=
  match p, s with
  | EmptyString, _ => true
  | String a p', String b s' => bool_decide (a = b) && startswith p' s'
  | String _ _, EmptyString => false
  end.

(** [p in s]: [p] occurs in [s] as a substring. *)
Fixpoint str_in (p s : string) : bool :=
  startswith p s ||
  match s with
  | EmptyString => false
  | String _ s' => str_in p s'
  end.

(** [sep.join(parts)] *)
Fixpoint join (sep : string) (parts : list string) : string :=
  match parts with
  | [] => ""
  | [x] => x
  | x :: rest => x ++ sep ++ join sep rest
  end.

Definition hex_digit (n : nat) : ascii :=
  if (n <? 10)%nat then ascii_of_nat (48 + n) else ascii_of_nat (55 + n).

(** The characters [quote] never escapes: letters, digits and [_.-~]. *)
Definition always_safe (c : ascii) : bool :=
  let n := nat_of_ascii c in
  ((65 <=? n) && (n <=? 90) || (97 <=? n) && (n <=? 122)
   || (48 <=? n) && (n <=? 57))%nat
  || bool_decide (c = "_"%char) || bool_decide (c = "."%char)
  || bool_decide (c = "-"%char) || bool_decide (c = "~"%char).

(** [quote_plus(s)]: a space becomes [+], an unsafe byte [%XX]. *)
Fixpoint quote_plus (s : string) : string :=
  match s with
  | EmptyString => EmptyString
  | String c s' =>
      if bool_decide (c = " "%char) then String "+" (quote_plus s')
      else if always_safe c then String c (quote_plus s')
      else String "%" (String (hex_digit (nat_of_ascii c / 16))
                         (String (hex_digit (nat_of_ascii c mod 16))
                            (quote_plus s')))
  end.

(** [urlencode(query)] for a list of pairs; a value is a string or
    [None], which [str] spells out. *)
Definition urlencode (query : list (string * option string)) : string :=
  join "&" (map (fun kv => quote_plus (fst kv) ++ "=" ++ quote_plus (str (snd kv)))
              query).

(** What [urlsplit(url)] returns. *)
Record SplitResult : Type := {
  scheme : string;
  netloc : string;
  path : string;
  query : string;
  fragment : string
}.

Definition uses_netloc : list string :=
  [""; "ftp"; "http"; "gopher"; "nntp"; "telnet"; "imap"; "wais"; "file";
   "mms"; "https"; "shttp"; "snews"; "prospero"; "rtsp"; "rtspu"; "rsync";
   "svn"; "svn+ssh"; "sftp"; "nfs"; "git"; "git+ssh"; "ws"; "wss"].

(** [urlunsplit((scheme, netloc, url, query, fragment))] *)
Definition urlunsplit (scheme netloc url query fragment : string) : string :=
  let url :=
    if truthy netloc
       || (truthy scheme && bool_decide (scheme ∈ uses_netloc)
           && negb (startswith "//" url))
    then "//" ++ netloc
         ++ (if truthy url && negb (startswith "/" url) then "/" ++ url else url)
    else url in
  let url := if truthy scheme then scheme ++ ":" ++ url else url in
  let url := if truthy query then url ++ "?" ++ query else url in
  if truthy fragment then url ++ "#" ++ fragment else url.

(** [s.endswith("/")] *)
Fixpoint ends_with_slash (s : string) : bool :=
  match s with
  | EmptyString => false
  | String c EmptyString => bool_decide (c = "/"%char)
  | String _ s' => ends_with_slash s'
  end.

(** [os.path.join(a, b)], on a POSIX system. *)
Definition path_join (a b : string) : string :=
  if startswith "/" b then b
  else if negb (truthy a) || ends_with_slash a then a ++ b
  else a ++ "/" ++ b.

End Text.

Import Text.

(** [relative_url(url)], on the components [urlsplit] gives for [url]. *)
Definition relative_url (parts : SplitResult) : string :=
  urlunsplit "" "" (Text.path parts) (query parts) (fragment parts).

(** ** The form object and its classification *)

(** The interface of an [lxml.html] form that [login_params] relies on.
    Assigning a field either updates the form or raises and leaves it as
    it was; reading never changes it. *)
Class FormElement (Form : Type) : Type := {
  (** [form.action], [None] when the element has no such attribute *)
  action : Form -> option string;
  (** [form.method] *)
  method : Form -> string;
  (** [form.fields[name] = value]: the form after the assignment, or the
      error raised; the form is then taken to be left as it was *)
  fields_set : Form -> string -> string -> result Form;
  (** [form.fields[name]] *)
  fields_get : Form -> string -> result (option string);
  (** [form.form_values()] *)
  form_values : Form -> list (string * string)
}.

(** What formasaurus says of a form: [meta['form']] and the items of
    [meta['fields']], field name to field type, in the dictionary's order. *)
Record Meta : Type := {
  form : string;
  fields : list (string * string)
}.

Definition USERNAME_FIELD_TYPES : gset string :=
  {[ "username"; "email"; "username or email" ]}.
Definition CHECK_CHECKBOXES : gset string := {[ "remember me checkbox" ]}.
Definition PASSWORD_FIELD_TYPES : gset string := {[ "password" ]}.
Definition SUBMIT_TYPES : gset string := {[ "submit button" ]}.
Definition DEFAULT_POST_HEADERS : gmap string string :=
  {[ "Content-Type" := "application/x-www-form-urlencoded" ]}.

(** The dictionary [login_params] returns. *)
Record Params : Type := {
  params_url : option string;
  params_method : string;
  params_headers : gmap string string;
  params_body : string
}.

(** ** Statements that update the form and may raise *)

Module Stmt.
Section Stmt.
Context {Form : Type} `{FormElement Form}.

(** A computation on the form object: its outcome and the form after it. *)
Definition St (A : Type) : Type := Form -> result A * Form.

Definition ret {A : Type} (a : A) : St A := fun f => (Ok a, f).

Definition bind {A B : Type} (m : St A) (k : A -> St B) : St B :=
  fun f =>
    match m f with
    | (Ok a, f') => k a f'
    | (Raise e, f') => (Raise e, f')
    end.

(** [try: m except ValueError: pass] *)
Definition except_ValueError (m : St unit) : St unit :=
  fun f =>
    match m f with
    | (Raise ValueError, f') => (Ok tt, f')
    | r => r
    end.

(** [form.fields[name] = value] *)
Definition assign (name value : string) : St unit :=
  fun f =>
    match fields_set f name value with
    | Ok f' => (Ok tt, f')
    | Raise e => (Raise e, f)
    end.

(** [form.fields[name]] *)
Definition lookup_field (name : string) : St (option string) :=
  fun f => (fields_get f name, f).

(** Reading an attribute of the form. *)
Definition read {A : Type} (attr : Form -> A) : St A :=
  fun f => (Ok (attr f), f).

End Stmt.
End Stmt.

Import Stmt.

Declare Scope stmt_scope.
Delimit Scope stmt_scope with stmt.
Notation "x <- m ;; k" := (bind m (fun x => k))
  (at level 100, m at next level, right associativity) : stmt_scope.
Notation "m ;; k" := (bind m (fun _ => k))
  (at level 100, right associativity) : stmt_scope.

(** ** [login_params] *)

Section LoginParams.
Context {Form : Type} `{FormElement Form}.

(** [urljoin(base, url)] of the standard library. *)
Variable urljoin : string -> option string -> string.

(** One turn of the loop that looks for the username and password
    fields. *)
Definition scan_step (found : option string * option string)
    (field : string * string) : option string * option string :=
  let '(username_field, password_field) := found in
  let '(field_name, field_type) := field in
  if bool_decide (field_type ∈ USERNAME_FIELD_TYPES)
  then (Some field_name, password_field)
  else if bool_decide (field_type ∈ PASSWORD_FIELD_TYPES)
  then (username_field, Some field_name)
  else (username_field, password_field).

(** The loop, from [username_field = password_field = None]. *)
Definition scan_fields (fields : list (string * string))
  : option string * option string :=
  fold_left scan_step fields (None, None).

(** The loop that ticks the checkboxes. *)
Fixpoint check_checkboxes (fields : list (string * string)) : St unit :=
  match fields with
  | [] => ret tt
  | (field_name, field_type) :: rest =>
      ((if bool_decide (field_type ∈ CHECK_CHECKBOXES)
        then except_ValueError (assign field_name "on")
        else ret tt) ;;
       check_checkboxes rest)%stmt
  end.

(** The loop that appends the submit buttons to [submit_values]. *)
Fixpoint append_submits (fields : list (string * string))
    (submit_values : list (string * option string))
  : St (list (string * option string)) :=
  match fields with
  | [] => ret submit_values
  | (field_name, field_type) :: rest =>
      if bool_decide (field_type ∈ SUBMIT_TYPES)
      then (v <- lookup_field field_name ;;
            append_submits rest (submit_values ++ [(field_name, v)]))%stmt
      else append_submits rest submit_values
  end.

Definition login_params (url : option string) (username password : string)
    (meta : Meta) : St (option Params) :=
  let fields := fields meta in
  match scan_fields fields with
  | (Some username_field, Some password_field) =>
      (check_checkboxes fields ;;
       assign username_field username ;;
       assign password_field password ;;
       submit_values <- read form_values ;;
       submit_values <-
         append_submits fields
           (map (fun kv => (fst kv, Some (snd kv))) submit_values) ;;
       form_action <- read action ;;
       form_method <- read method ;;
       ret (Some {|
         params_url :=
           match url with
           | None => form_action
           | Some base => Some (urljoin base form_action)
           end;
         params_method := form_method;
         params_headers :=
           if String.eqb form_method "POST"
           then DEFAULT_POST_HEADERS else ∅;
         params_body := urlencode submit_values
       |}))%stmt
  | _ => ret None
  end.

End LoginParams.

(** ** Responses, links and requests *)

(** A link of the page: [link.url], kept as the components [urlsplit]
    gives for it, and [link.text]. *)
Record Link : Type := {
  link_url : SplitResult;
  link_text : string
}.

(** A response, with what the collaborators of the spiders read from it. *)
Record Response (Form : Type) : Type := {
  (** [response.url] *)
  response_url : string;
  (** [response.text] *)
  response_text : string;
  (** [get_base_url(response)] *)
  base_url : string;
  (** [formasaurus.extract_forms(response.text)] *)
  extract_forms : list (Form * Meta);
  (** [link_extractor.extract_links(response)] *)
  extract_links : list Link;
  (** [response.cookiejar], [None] when the response has no such
      attribute and [Some None] when the attribute holds [None] *)
  cookiejar : option (option (list Cookie));
  (** what [get_cookiejar(response)] returns: the function belongs to
      [autologin.middleware] and its result is taken as given, [None] when
      no jar was attached *)
  get_cookiejar : option (list Cookie);
  (** [response.meta['initial_cookies']] *)
  meta_initial_cookies : list CookieDict
}.

Arguments response_url {Form} _.
Arguments response_text {Form} _.
Arguments base_url {Form} _.
Arguments extract_forms {Form} _.
Arguments extract_links {Form} _.
Arguments cookiejar {Form} _.
Arguments get_cookiejar {Form} _.
Arguments meta_initial_cookies {Form} _.

(** [_response_cookies(response)] *)
Definition _response_cookies {Form : Type} (response : Response Form)
  : option (list Cookie) :=
  match cookiejar response with
  | Some jar => jar
  | None => get_cookiejar response
  end.

(** ** [FormSpider] *)

Module FormSpider.

Definition priority_patterns : list string :=
  [ "login"; "log in"; "logon"; "signin"; "sign in"; "sign-in";
    "signup"; "sign up"; "sign-up"; "register"; "registration";
    "account"; "join" ].

(** The credentials row the spider fills in. *)
Record Credentials : Type := {
  login_url : option string;
  registration_url : option string
}.

(** The attributes of the spider that [parse] reads and writes, and the
    rows committed to the database so far, oldest first. *)
Record t : Type := {
  credentials : Credentials;
  found_login : bool;
  found_registration : bool;
  committed : list Credentials
}.

(** The request [parse] yields for a link. *)
Record Request : Type := {
  request_url : SplitResult;
  priority : Z
}.

(** [__init__]: nothing found yet. *)
Definition init (credentials : Credentials) : t :=
  {| credentials := credentials;
     found_login := false;
     found_registration := false;
     committed := [] |}.

(** [handle_login_form(url)] *)
Definition handle_login_form (self : t) (url : string) : t :=
  let credentials :=
    {| login_url := Some url;
       registration_url := registration_url (credentials self) |} in
  {| credentials := credentials;
     found_login := found_login self;
     found_registration := found_registration self;
     committed := committed self ++ [credentials] |}.

(** [handle_registration_form(url)] *)
Definition handle_registration_form (self : t) (url : string) : t :=
  let credentials :=
    {| login_url := login_url (credentials self);
       registration_url := Some url |} in
  {| credentials := credentials;
     found_login := found_login self;
     found_registration := found_registration self;
     committed := committed self ++ [credentials] |}.

Definition set_found_login (self : t) : t :=
  {| credentials := credentials self;
     found_login := true;
     found_registration := found_registration self;
     committed := committed self |}.

Definition set_found_registration (self : t) : t :=
  {| credentials := credentials self;
     found_login := found_login self;
     found_registration := true;
     committed := committed self |}.

(** The body of the loop over the forms of the page. *)
Definition see_form (url : string) (self : t) (form_type : string) : t :=
  if String.eqb form_type "login" && negb (found_login self)
  then handle_login_form (set_found_login self) url
  else if String.eqb form_type "registration"
          && negb (found_registration self)
  then handle_registration_form (set_found_registration self) url
  else self.

(** The priority [parse] gives to a link. *)
Definition link_priority (link : Link) : Z :=
  let text := lower (join " " [relative_url (link_url link); link_text link]) in
  if existsb (fun pattern => str_in pattern text) priority_patterns
  then 100%Z else 0%Z.

(** [parse(response)]: the spider after the call, and either the
    requests yielded or the exception raised. *)
Definition parse {Form : Type} (self : t) (response : Response Form)
  : t * result (list Request) :=
  let self :=
    if truthy (response_text response)
    then fold_left (see_form (response_url response))
           (map (fun fm => form (snd fm)) (extract_forms response)) self
    else self in
  if found_registration self && found_login self
  then (self, Raise (CloseSpider "done"))
  else (self,
        Ok (map (fun link =>
                   {| request_url := link_url link;
                      priority := link_priority link |})
              (extract_links response))).

(** The spider after each of the responses of a crawl, in the order in
    which they are parsed, the starting spider first. *)
Fixpoint crawl {Form : Type} (self : t) (responses : list (Response Form))
  : list t :=
  match responses with
  | [] => [self]
  | response :: rest => self :: crawl (fst (parse self response)) rest
  end.


End FormSpider.

(** ** [LoginSpider] *)

Module LoginSpider.

Record t : Type := {
  username : string;
  password : string;
  using_splash : bool
}.

(** The item a login attempt ends with. *)
Inductive Item : Type :=
| Failed (error : string)
| LoggedIn (cookies : list Cookie) (start_url : string).

(** The login request [parse] returns, with [parse_login] as callback. *)
Record Request : Type := {
  request_url : option string;
  request_method : string;
  request_headers : gmap string string;
  request_body : string;
  initial_cookies : list CookieDict;
  dont_filter : bool
}.

(** What a call leaves behind besides its result: a file written, a line
    logged at the debug level. *)
Inductive Effect : Type :=
| Wrote (filename text : string)
| LoggedDebug (message : string).

(** The calls the spider makes to what this module does not define, each
    with the result or the error it gives. *)
Record Env (Form : Type) : Type := {
  (** the error [formasaurus.extract_forms(text)] raises on this text, if
      it raises one *)
  forms_error : string → option exn;
  (** the error [self.request] raises when it is called to build this
      request, if it raises one *)
  request_error : Request → option exn;
  (** [b64decode(response.data['page'])] *)
  page_data : Response Form → result string;
  (** [self.logger.isEnabledFor(logging.DEBUG)] *)
  debug_enabled : bool;
  (** [server_path] of [autologin.app] *)
  server_path : string;
  (** [uuid.uuid4()], as text *)
  uuid4 : string;
  (** the error raised by opening this file for writing or by writing
      this text to it, if one is raised *)
  write_error : string → string → option exn
}.

Arguments forms_error {Form} _ _.
Arguments request_error {Form} _ _.
Arguments page_data {Form} _ _.
Arguments debug_enabled {Form} _.
Arguments server_path {Form} _.
Arguments uuid4 {Form} _.
Arguments write_error {Form} _ _ _.

(** [debug_screenshot(name, screenshot)] *)
Definition debug_screenshot {Form : Type} (env : Env Form)
    (name screenshot : string) : result (list Effect) :=
  if negb (debug_enabled env) then Ok []
  else
    let browser_dir := path_join (server_path env) "static/browser" in
    let filename := path_join browser_dir (uuid4 env ++ ".jpeg") in
    match write_error env filename screenshot with
    | Some e => Raise e
    | None =>
        Ok [ Wrote filename screenshot;
             LoggedDebug ("saved " ++ name ++ " screenshot to " ++ filename) ]
    end.

(** [get_login_form(html_source)], on the forms extracted from it. *)
Fixpoint get_login_form {Form : Type} (forms : list (Form * Meta))
  : option (Form * Meta) :=
  match forms with
  | [] => None
  | (form_, meta) :: rest =>
      if String.eqb (form meta) "login" then Some (form_, meta)
      else get_login_form rest
  end.

(** [params[key]] for [params] the value [login_params] returned. *)
Definition subscript {A : Type} (params : option Params) (key : Params -> A)
  : result A :=
  match params with
  | None => Raise TypeError
  | Some p => Ok (key p)
  end.

Section Parse.
Context {Form : Type} `{FormElement Form}.
Variable urljoin : string -> option string -> string.
Variable env : Env Form.

(** [parse(response)]: an item, or the request that submits the form. *)
Definition parse (self : t) (response : Response Form)
  : result (Item + Request) :=
  match forms_error env (response_text response) with
  | Some e => Raise e
  | None =>
  match get_login_form (extract_forms response) with
  | None => Ok (inl (Failed "nologinform"))
  | Some (form_, meta) =>
      match login_params urljoin (Some (base_url response))
              (username self) (password self) meta form_ with
      | (Raise e, _) => Raise e
      | (Ok params, _) =>
          let initial_cookies :=
            or_empty (cookie_dicts (_response_cookies response)) in
          match subscript params params_url with
          | Raise e => Raise e
          | Ok url =>
          match subscript params params_method with
          | Raise e => Raise e
          | Ok method =>
          match subscript params params_headers with
          | Raise e => Raise e
          | Ok headers =>
          match subscript params params_body with
          | Raise e => Raise e
          | Ok body =>
              let request :=
                {| request_url := url;
                   request_method := method;
                   request_headers := headers;
                   request_body := body;
                   initial_cookies := initial_cookies;
                   dont_filter := true |} in
              match request_error env request with
              | Some e => Raise e
              | None => Ok (inr request)
              end
          end end end end
      end
  end
  end.

End Parse.

(** [parse_login(response)]: what the call leaves behind and the item it
    returns, or the error it raises. *)
Definition parse_login {Form : Type} (env : Env Form) (self : t)
    (response : Response Form) : result (list Effect * Item) :=
  let cookies := or_empty (_response_cookies response) in
  let old_cookies := tuple_set (meta_initial_cookies response) in
  let new_cookies := tuple_set (default [] (cookie_dicts (Some cookies))) in
  if bool_decide (new_cookies ⊆ old_cookies)
  then
    if using_splash self
    then
      match page_data env response with
      | Raise e => Raise e
      | Ok screenshot =>
          match debug_screenshot env "page" screenshot with
          | Raise e => Raise e
          | Ok effects => Ok (effects, Failed "badauth")
          end
      end
    else Ok ([], Failed "badauth")
  else Ok ([], LoggedIn cookies (response_url response)).

End LoginSpider.

(** ** A concrete form

    A form made of text inputs, checkboxes, drop-down lists and submit
    buttons, with the behaviour [lxml.html] gives to each: the instance of
    [FormElement] on which the examples run. *)

Module HtmlForm.

(** The controls of a form, as [form.inputs[name]] hands them out. The
    checkboxes that share a name are one [CheckboxGroup], each box with
    its value attribute and whether it is ticked; a checkbox that is alone
    under its name is a [CheckboxInput]. *)
Inductive Control : Type :=
| TextInput (value : option string)
| CheckboxInput (checked : bool) (value : option string)
| CheckboxGroup (boxes : list (option string * bool))
| SelectInput (options : list string) (selected : option string)
| SubmitInput (value : option string).

Record t : Type := {
  form_action : option string;
  form_method : string;
  inputs : list (string * Control)
}.

(** What iterating over the string [v] gives: its letters. *)
Fixpoint letters (v : string) : list string :=
  match v with
  | EmptyString => []
  | String c v' => String c EmptyString :: letters v'
  end.

(** [values.clear()] on a group: no box is ticked. *)
Definition untick (boxes : list (option string * bool))
  : list (option string * bool) :=
  (λ box, (box.1, false)) <$> boxes.

(** [values.add(value)] on a group: the first box with this value is
    ticked, and [None] stands for the [KeyError] raised when there is no
    such box. *)
Fixpoint tick (value : string) (boxes : list (option string * bool))
  : option (list (option string * bool)) :=
  match boxes with
  | [] => None
  | (box_value, checked) :: rest =>
      if bool_decide (box_value = Some value)
      then Some ((box_value, true) :: rest)
      else match tick value rest with
           | Some rest' => Some ((box_value, checked) :: rest')
           | None => None
           end
  end.

(** [values.update(v)]: the values of [v] are added one after the other. *)
Fixpoint tick_all (values : list string) (boxes : list (option string * bool))
  : option (list (option string * bool)) :=
  match values with
  | [] => Some boxes
  | value :: rest =>
      match tick value boxes with
      | Some boxes' => tick_all rest boxes'
      | None => None
      end
  end.

(** [el.value = v] for [v] a string. A group takes the letters of [v] as
    the values to tick, after it has cleared its boxes; when it raises,
    the boxes it has cleared and ticked by then are not kept. *)
Definition set_value (c : Control) (v : string) : result Control :=
  match c with
  | TextInput _ => Ok (TextInput (Some v))
  | CheckboxInput checked value =>
      if truthy v then Ok (CheckboxInput true (Some v))
      else Ok (CheckboxInput false value)
  | CheckboxGroup boxes =>
      match tick_all (letters v) (untick boxes) with
      | Some boxes' => Ok (CheckboxGroup boxes')
      | None => Raise KeyError
      end
  | SelectInput options selected =>
      if bool_decide (v ∈ options) then Ok (SelectInput options (Some v))
      else Raise ValueError
  | SubmitInput _ => Ok (SubmitInput (Some v))
  end.

(** The value a ticked box sends. *)
Definition box_value (value : option string) : string :=
  match value with
  | Some v => if truthy v then v else "on"
  | None => "on"
  end.

(** [repr(v)] for [v] a value attribute without quotes or escapes. *)
Definition repr (v : option string) : string :=
  match v with
  | Some s => "'" ++ s ++ "'"
  | None => "None"
  end.

(** [el.value]; for a group, the text that stands for the set of its
    ticked values. *)
Definition get_value (name : string) (c : Control) : option string :=
  match c with
  | TextInput value => value
  | CheckboxInput checked value =>
      if checked then Some (box_value value) else None
  | CheckboxGroup boxes =>
      Some ("<CheckboxValues {"
            ++ join ", " (repr <$> (fst <$> filter (λ box, box.2 = true) boxes))
            ++ "} for checkboxes name=" ++ repr (Some name) ++ ">")
  | SelectInput options selected =>
      match selected with
      | Some v => Some v
      | None => head options
      end
  | SubmitInput value => value
  end.

(** [inputs[name].value = v], on the first control of that name. *)
Fixpoint set_input (inputs : list (string * Control)) (name v : string)
  : result (list (string * Control)) :=
  match inputs with
  | [] => Raise KeyError
  | (n, c) :: rest =>
      if String.eqb n name
      then match set_value c v with
           | Ok c' => Ok ((n, c') :: rest)
           | Raise e => Raise e
           end
      else match set_input rest name v with
           | Ok rest' => Ok ((n, c) :: rest')
           | Raise e => Raise e
           end
  end.

Fixpoint get_input (inputs : list (string * Control)) (name : string)
  : result (option string) :=
  match inputs with
  | [] => Raise KeyError
  | (n, c) :: rest =>
      if String.eqb n name then Ok (get_value n c) else get_input rest name
  end.

(** The pairs a browser would send, submit buttons left out. *)
Fixpoint values (inputs : list (string * Control)) : list (string * string) :=
  match inputs with
  | [] => []
  | (n, SubmitInput _) :: rest => values rest
  | (n, CheckboxGroup boxes) :: rest =>
      ((λ box, (n, box_value box.1)) <$> filter (λ box, box.2 = true) boxes)
      ++ values rest
  | (n, c) :: rest =>
      match get_value n c with
      | Some v => (n, v) :: values rest
      | None => values rest
      end
  end.

Definition set_field (f : t) (name v : string) : result t :=
  match set_input (inputs f) name v with
  | Ok inputs' =>
      Ok {| form_action := form_action f;
            form_method := form_method f;
            inputs := inputs' |}
  | Raise e => Raise e
  end.

#[global] Instance form_element : FormElement t := {|
  action := form_action;
  method := form_method;
  fields_set := set_field;
  fields_get := fun f name => get_input (inputs f) name;
  form_values := fun f => values (inputs f)
|}.

(** [s] cut at the first occurrence of [sep], which is left out. *)
Fixpoint cut (sep s : string) : option (string * string) :=
  match s with
  | EmptyString => None
  | String c s' =>
      if startswith sep s
      then Some (EmptyString, String.substring (String.length sep)
                                (String.length s) s)
      else match cut sep s' with
           | Some (before, after) => Some (String c before, after)
           | None => None
           end
  end.

(** [s] up to its first character in [stops]. *)
Fixpoint up_to (stops : list ascii) (s : string) : string :=
  match s with
  | EmptyString => EmptyString
  | String c s' =>
      if bool_decide (c ∈ stops) then EmptyString else String c (up_to stops s')
  end.

(** A path up to its last slash, the slash included. *)
Fixpoint directory (path : string) : string :=
  match path with
  | EmptyString => EmptyString
  | String c path' =>
      if str_in "/" path' then String c (directory path')
      else if bool_decide (c = "/"%char) then "/" else EmptyString
  end.

(** [urljoin(base, url)] for a base with a scheme and a reference that is
    absent, empty, an absolute http or https URL, or a path with neither
    dot segments nor a reference that is only a query or a fragment. *)
Definition urljoin (base : string) (url : option string) : string :=
  match url with
  | None => base
  | Some u =>
      if negb (truthy u) then base
      else if startswith "http://" u || startswith "https://" u then u
      else
        match cut "://" base with
        | None => u
        | Some (scheme_, rest) =>
            let netloc_ := up_to ["/"; "?"; "#"]%char rest in
            let path_ :=
              up_to ["?"; "#"]%char
                (String.substring (String.length netloc_)
                   (String.length rest) rest) in
            if startswith "//" u then scheme_ ++ ":" ++ u
            else if startswith "/" u then scheme_ ++ "://" ++ netloc_ ++ u
            else scheme_ ++ "://" ++ netloc_
                 ++ (if truthy path_ then directory path_ else "/") ++ u
        end
  end.

End HtmlForm.

(** ** Sample data *)

Module Samples.
Import HtmlForm.

Definition sid : Cookie :=
  {| name := "sid"; value := Some "abc"; domain := "x.com"; Cookies.path := "/";
     port := Some "443"; secure := false; expires := None; discard := true;
     comment := None |}.

(** A login form with a remember-me drop-down list that has no "on"
    option, so that ticking it raises [ValueError]. *)
Definition login_form : HtmlForm.t :=
  {| form_action := Some "login";
     form_method := "POST";
     inputs := [ ("user", TextInput None);
                 ("pass", TextInput None);
                 ("remember", SelectInput ["yes"; "no"] None);
                 ("keep", CheckboxInput false None);
                 ("go", SubmitInput (Some "Log in")) ] |}.

Definition login_meta : Meta :=
  {| form := "login";
     fields := [ ("user", "username");
                 ("pass", "password");
                 ("remember", "remember me checkbox");
                 ("keep", "remember me checkbox");
                 ("go", "submit button") ] |}.

Definition spider : LoginSpider.t :=
  {| LoginSpider.username := "alice";
     LoginSpider.password := "s3cret";
     LoginSpider.using_splash := false |}.

(** A run without Splash and without debug logging: formasaurus refuses
    an empty document, a request needs a url with a scheme, and a plain
    response has no [data]. *)
Definition env : LoginSpider.Env HtmlForm.t :=
  {| LoginSpider.forms_error :=
       λ text, if truthy text then None else Some (Error "ParserError");
     LoginSpider.request_error :=
       λ request,
         match LoginSpider.request_url request with
         | Some url => if str_in "://" url then None else Some ValueError
         | None => Some TypeError
         end;
     LoginSpider.page_data := λ _, Raise (Error "AttributeError");
     LoginSpider.debug_enabled := false;
     LoginSpider.server_path := "/srv/autologin";
     LoginSpider.uuid4 := "0b3c6a52-6a9e-4a63-9a0e-8c2f7d1e5b11";
     LoginSpider.write_error := λ _ _, None |}.

(** The same spider with Splash. *)
Definition splash_spider : LoginSpider.t :=
  {| LoginSpider.username := "alice";
     LoginSpider.password := "s3cret";
     LoginSpider.using_splash := true |}.

(** A run with Splash and debug logging in which the screenshot is
    written. *)
Definition debug_env : LoginSpider.Env HtmlForm.t :=
  {| LoginSpider.forms_error := LoginSpider.forms_error env;
     LoginSpider.request_error := LoginSpider.request_error env;
     LoginSpider.page_data := λ _, Ok "JFIF";
     LoginSpider.debug_enabled := true;
     LoginSpider.server_path := "/srv/autologin";
     LoginSpider.uuid4 := "0b3c6a52-6a9e-4a63-9a0e-8c2f7d1e5b11";
     LoginSpider.write_error := λ _ _, None |}.


Definition page (forms : list (HtmlForm.t * Meta))
    (jar : option (list Cookie)) (initial : list CookieDict)
  : Response HtmlForm.t :=
  {| response_url := "http://x.com/";
     response_text := "<html></html>";
     base_url := "http://x.com/";
     extract_forms := forms;
     extract_links := [];
     cookiejar := None;
     get_cookiejar := jar;
     meta_initial_cookies := initial |}.

(** A response rendered by Splash, which carries its jar as an
    attribute. *)
Definition rendered_page (jar : option (list Cookie))
    (initial : list CookieDict) : Response HtmlForm.t :=
  {| response_url := "http://x.com/";
     response_text := "<html></html>";
     base_url := "http://x.com/";
     extract_forms := [];
     extract_links := [];
     cookiejar := Some jar;
     get_cookiejar := None;
     meta_initial_cookies := initial |}.

(** [login_form] after [login_params] has filled it in, and the
    parameters returned. *)
Definition submitted_form : HtmlForm.t :=
  {| form_action := Some "login";
     form_method := "POST";
     inputs := [ ("user", TextInput (Some "alice"));
                 ("pass", TextInput (Some "s3cret"));
                 ("remember", SelectInput ["yes"; "no"] None);
                 ("keep", CheckboxInput true (Some "on"));
                 ("go", SubmitInput (Some "Log in")) ] |}.

Definition submitted_params : Params :=
  {| params_url := Some "http://x.com/login";
     params_method := "POST";
     params_headers := DEFAULT_POST_HEADERS;
     params_body := "user=alice&pass=s3cret&remember=yes&keep=on&go=Log+in" |}.

(** Scenario B of the specification: a login form with no password
    field. *)
Definition form_B : HtmlForm.t :=
  {| form_action := Some "login";
     form_method := "POST";
     inputs := [ ("email", TextInput None);
                 ("remember", CheckboxInput false None) ] |}.

Definition meta_B : Meta :=
  {| form := "login";
     fields := [ ("email", "username or email");
                 ("remember", "remember me checkbox") ] |}.

(** A form with two fields for the user and two for the password. *)
Definition form_twice : HtmlForm.t :=
  {| form_action := Some "/session";
     form_method := "POST";
     inputs := [ ("login", TextInput None);
                 ("mail", TextInput None);
                 ("pw", TextInput None);
                 ("pw2", TextInput None) ] |}.

Definition meta_twice : Meta :=
  {| form := "login";
     fields := [ ("login", "username");
                 ("mail", "email");
                 ("pw", "password");
                 ("pw2", "password") ] |}.

(** A form whose user field is a drop-down list of known accounts. *)
Definition form_choice : HtmlForm.t :=
  {| form_action := Some "login";
     form_method := "POST";
     inputs := [ ("who", SelectInput ["bob"; "carol"] None);
                 ("pass", TextInput None) ] |}.

Definition meta_choice : Meta :=
  {| form := "login";
     fields := [ ("who", "username"); ("pass", "password") ] |}.

(** A login form with two "remember me" checkboxes of one name, which
    lxml gathers into a group. *)
Definition form_group : HtmlForm.t :=
  {| form_action := Some "login";
     form_method := "POST";
     inputs := [ ("user", TextInput None);
                 ("pass", TextInput None);
                 ("remember",
                  CheckboxGroup [(Some "week", false); (Some "month", false)]);
                 ("go", SubmitInput (Some "Log in")) ] |}.

Definition meta_group : Meta :=
  {| form := "login";
     fields := [ ("user", "username");
                 ("pass", "password");
                 ("remember", "remember me checkbox");
                 ("go", "submit button") ] |}.

Definition link (path_ query_ text : string) : Link :=
  {| link_url := {| scheme := "http"; netloc := "x.com"; Text.path := path_;
                    query := query_; fragment := "" |};
     link_text := text |}.

End Samples.

(** ** Notions used to state the properties *)

(** Whether a login attempt ended with a success item. *)
Definition logged_in (item : LoginSpider.Item) : bool :=
  match item with
  | LoginSpider.LoggedIn _ _ => true
  | LoginSpider.Failed _ => false
  end.

(** Whether a call of [parse_login] ended with a success item. *)
Definition succeeded
    (outcome : result (list LoginSpider.Effect * LoginSpider.Item)) : bool :=
  match outcome with
  | Ok (_, item) => logged_in item
  | Raise _ => false
  end.

(** Two cookies are the same cookie: they agree on name, value, domain,
    path and port. *)
Definition same_identity (c c' : Cookie) : Prop :=
  name c = name c' ∧ value c = value c' ∧ domain c = domain c'
  ∧ Cookies.path c = Cookies.path c' ∧ port c = port c'.

(** A cookie that none of the cookies of [initial] is. *)
Definition is_new (initial : list Cookie) (c : Cookie) : Prop :=
  ∀ c0, c0 ∈ initial → ¬ same_identity c0 c.

(** The cookies a response shows: those of the jar it carries as an
    attribute when it has this attribute, else those of the jar the
    middleware exposes, and none when that jar is missing. *)
Definition shows {Form : Type} (response : Response Form)
    (cookies : list Cookie) : Prop :=
  match cookiejar response with
  | Some jar => cookies = default [] jar
  | None => cookies = default [] (get_cookiejar response)
  end.

(** The name of the last, and of the first, field of [fields] whose type
    is one of [types]. *)
Definition last_of_type (types : gset string) (fields : list (string * string))
  : option string :=
  fst <$> last (filter (λ field, field.2 ∈ types) fields).

Definition first_of_type (types : gset string) (fields : list (string * string))
  : option string :=
  fst <$> head (filter (λ field, field.2 ∈ types) fields).

(** The reading of the field scan under which the first field of each kind
    is the one selected. *)
Definition selects_first_fields (fields : list (string * string)) : Prop :=
  scan_fields fields
  = (first_of_type USERNAME_FIELD_TYPES fields,
     first_of_type PASSWORD_FIELD_TYPES fields).

(** The text in which the patterns would be searched if only the path of
    the link were joined to its text, and the priority that follows. *)
Definition path_and_text (link : Link) : string :=
  lower (join " " [Text.path (link_url link); link_text link]).

Definition path_and_text_priority (link : Link) : Z :=
  if existsb (fun pattern => str_in pattern (path_and_text link))
       FormSpider.priority_patterns
  then 100%Z else 0%Z.

(** [p] occurs in [s]. *)
Definition occurs_in (p s : string) : Prop := ∃ a b, s = a ++ p ++ b.

(** Whether the page has text in which formasaurus finds a form of type
    [kind]. *)
Definition has_form {Form : Type} (kind : string) (response : Response Form)
  : bool :=
  truthy (response_text response)
  && existsb (λ fm, String.eqb (form fm.2) kind) (extract_forms response).

(** The spider once all of [responses] have been parsed. *)
Definition after_crawl {Form : Type} (self : FormSpider.t)
    (responses : list (Response Form)) : FormSpider.t :=
  fold_left (λ self response, fst (FormSpider.parse self response))
    responses self.

(** An assignment to a field of the form, inside [try: ... except
    ValueError: pass] when [guarded]. *)
Record Assignment : Type := {
  target : string;
  new_value : string;
  guarded : bool
}.

Section Assignments.
Context {Form : Type} `{FormElement Form}.

Definition run_assignment (a : Assignment) : St unit :=
  if guarded a
  then except_ValueError (assign (target a) (new_value a))
  else assign (target a) (new_value a).

Fixpoint run_assignments (l : list Assignment) : St unit :=
  match l with
  | [] => ret tt
  | a :: rest => (run_assignment a ;; run_assignments rest)%stmt
  end.

End Assignments.

(** The assignments [login_params] makes, in order, once it has found
    both fields. *)
Definition checkbox_assignments (fields : list (string * string))
  : list Assignment :=
  (λ field, {| target := field.1; new_value := "on"; guarded := true |})
    <$> filter (λ field, field.2 ∈ CHECK_CHECKBOXES) fields.

Definition assignments (fields : list (string * string))
    (username_field username password_field password : string)
  : list Assignment :=
  checkbox_assignments fields
  ++ [ {| target := username_field; new_value := username; guarded := false |};
       {| target := password_field; new_value := password; guarded := false |} ].

(** What assigning to the fields of a form is expected to satisfy: a
    second assignment of the same value changes nothing, and an assignment
    to one field leaves alone what assigning to another field does. *)
Class FormLaws (Form : Type) `{FormElement Form} : Prop := {
  fields_set_idem (f f' : Form) (name v : string) :
    fields_set f name v = Ok f' → fields_set f' name v = Ok f';
  fields_set_frame_ok (f f' : Form) (name v other w : string) :
    name ≠ other →
    fields_set f other w = Ok f' →
    fields_set f name v = Ok f →
    fields_set f' name v = Ok f';
  fields_set_frame_raise (f f' : Form) (name v other w : string) (e : exn) :
    name ≠ other →
    fields_set f other w = Ok f' →
    fields_set f name v = Raise e →
    fields_set f' name v = Raise e
}.

(** ** Settings, [crawl_runner] and the start requests *)

Module Settings.

(** The values the settings of this module take. A middleware table maps
    a class path to its order, or to [None] to switch the class off. *)
Inductive Value : Type :=
| VBool (b : bool)
| VInt (n : Z)
| VFloat (numerator : Z) (denominator : positive)
| VStr (s : string)
| VDict (d : gmap string (option Z)).

(** The priorities Scrapy gives to the sources of a setting. *)
Definition default_priority : Z := 0.
Definition project : Z := 20.
Definition cmdline : Z := 40.

(** [settings.set(name, value, priority)]: a name not yet set takes the
    value, a name already set takes it when the priority is not lower than
    the one it was set with. A settings object maps a name to the priority
    and the value it was last set with. *)
Definition set (settings : gmap string (Z * Value)) (name : string)
    (value : Value) (priority : Z) : gmap string (Z * Value) :=
  match settings !! name with
  | None => <[name := (priority, value)]> settings
  | Some (current, _) =>
      if (current <=? priority)%Z
      then <[name := (priority, value)]> settings
      else settings
  end.

(** [settings.update(values, priority)] for [values] a dictionary. *)
Definition update (settings : gmap string (Z * Value))
    (values : list (string * Value)) (priority : Z)
  : gmap string (Z * Value) :=
  fold_left (λ settings item, set settings item.1 item.2 priority)
    values settings.

(** [settings[name]], [None] when the name is not set. *)
Definition getitem (settings : gmap string (Z * Value)) (name : string)
  : option Value :=
  snd <$> settings !! name.

(** [bool(settings.get(name))] *)
Definition enabled (settings : gmap string (Z * Value)) (name : string)
  : bool :=
  match getitem settings name with
  | None => false
  | Some (VBool b) => b
  | Some (VInt n) => negb (n =? 0)%Z
  | Some (VFloat n _) => negb (n =? 0)%Z
  | Some (VStr s) => truthy s
  | Some (VDict d) => negb (bool_decide (d = ∅))
  end.

End Settings.

Definition USER_AGENT : string :=
  "Mozilla/5.0 (X11; Linux i686) AppleWebKit/537.36 "
  ++ "(KHTML, like Gecko) Ubuntu Chromium/43.0.2357.130 "
  ++ "Chrome/43.0.2357.130 Safari/537.36".

(** The values [base_settings] is built from. *)
Definition base_values : list (string * Settings.Value) :=
  [ ("TELNETCONSOLE_ENABLED", Settings.VBool false);
    ("ROBOTSTXT_OBEY", Settings.VBool false);
    ("DEPTH_LIMIT", Settings.VInt 3);
    ("DOWNLOAD_DELAY", Settings.VFloat 2 1);
    ("DEPTH_PRIORITY", Settings.VInt 1);
    ("CONCURRENT_REQUESTS", Settings.VInt 2);
    ("CONCURRENT_REQUESTS_PER_DOMAIN", Settings.VInt 2);
    ("SCHEDULER_DISK_QUEUE", Settings.VStr "scrapy.squeues.PickleFifoDiskQueue");
    ("SCHEDULER_MEMORY_QUEUE", Settings.VStr "scrapy.squeues.FifoMemoryQueue");
    ("CLOSESPIDER_PAGECOUNT", Settings.VInt 2000);
    ("DOWNLOAD_MAXSIZE", Settings.VInt (1 * 1024 * 1024));
    ("USER_AGENT", Settings.VStr USER_AGENT) ].

Definition splash_middlewares : gmap string (option Z) :=
  {[ "scrapy.downloadermiddlewares.cookies.CookiesMiddleware" := None;
     "scrapy_splash.SplashCookiesMiddleware" := Some 723%Z;
     "scrapy_splash.SplashMiddleware" := Some 725%Z;
     "scrapy.downloadermiddlewares.httpcompression.HttpCompressionMiddleware"
       := Some 810%Z ]}.

Definition plain_middlewares : gmap string (option Z) :=
  {[ "scrapy.downloadermiddlewares.cookies.CookiesMiddleware" := None;
     "autologin.middleware.ExposeCookiesMiddleware" := Some 700%Z ]}.

Section CrawlRunner.

(** The settings Scrapy ships with, which [Settings(values=...)] loads at
    the default priority before the values it is given. *)
Variable default_settings : list (string * Settings.Value).

(** [base_settings] *)
Definition base_settings : gmap string (Z * Settings.Value) :=
  Settings.update
    (Settings.update ∅ default_settings Settings.default_priority)
    base_values Settings.project.

(** [crawl_runner(splash_url, extra_settings)]: the settings the runner
    is created with. *)
Definition crawl_runner (splash_url : option string)
    (extra_settings : option (list (string * Settings.Value)))
  : gmap string (Z * Settings.Value) :=
  let settings := base_settings in
  let settings :=
    match splash_url with
    | Some url =>
        if truthy url
        then
          let settings :=
            Settings.set settings "SPLASH_URL" (Settings.VStr url)
              Settings.project in
          let settings :=
            Settings.set settings "DUPEFILTER_CLASS"
              (Settings.VStr "scrapy_splash.SplashAwareDupeFilter")
              Settings.project in
          Settings.set settings "DOWNLOADER_MIDDLEWARES"
            (Settings.VDict splash_middlewares) Settings.project
        else
          Settings.set settings "DOWNLOADER_MIDDLEWARES"
            (Settings.VDict plain_middlewares) Settings.project
    | None =>
        Settings.set settings "DOWNLOADER_MIDDLEWARES"
          (Settings.VDict plain_middlewares) Settings.project
    end in
  match extra_settings with
  | Some extra => Settings.update settings extra Settings.cmdline
  | None => settings
  end.

End CrawlRunner.

(** ** Requests as calls, [splash_request] and [BaseSpider] *)

Module BaseSpider.

(** The arguments a request is built with. *)
Inductive Atom : Type :=
| AStr (s : string)
| AInt (n : Z)
| ABool (b : bool)
| ACallback (method_name : string).

Inductive Arg : Type :=
| Plain (a : Atom)
| Dict (d : gmap string Atom).

(** A request, by the class that builds it, with its positional and its
    keyword arguments. *)
Inductive Class_ : Type :=
| ScrapyRequest
| SplashRequest.

Record Request : Type := {
  class : Class_;
  args : list Arg;
  kwargs : gmap string Arg
}.

Section Requests.

(** The error the constructor of a request class raises for these
    arguments, if it raises one. *)
Variable refuses : Class_ → list Arg → gmap string Arg → option exn.

(** Calling the request class [cls] with [args] and [kwargs]. *)
Definition build (cls : Class_) (args : list Arg) (kwargs : gmap string Arg)
  : result Request :=
  match refuses cls args kwargs with
  | Some e => Raise e
  | None => Ok {| class := cls; args := args; kwargs := kwargs |}
  end.

(** [splash_request(lua_source, *args, **kwargs)] *)
Definition splash_request (lua_source : string) (args : list Arg)
    (kwargs : gmap string Arg) : result Request :=
  let kwargs := <["endpoint" := Plain (AStr "execute")]> kwargs in
  match kwargs !! "args" with
  | None =>
      build SplashRequest args
        (<["args" := Dict {[ "lua_source" := AStr lua_source ]}]> kwargs)
  | Some (Dict splash_args) =>
      build SplashRequest args
        (<["args" := Dict (<["lua_source" := AStr lua_source]> splash_args)]>
           kwargs)
  | Some (Plain _) => Raise TypeError
  end.

End Requests.

(** The attributes of a spider that [start_requests] reads. *)
Record t : Type := {
  lua_source : string;
  start_urls : list string;
  settings : gmap string (Z * Settings.Value)
}.

(** What a generator has yielded, and the exception that ended it if one
    did. *)
Fixpoint yield_each {A B : Type} (f : A → result B) (l : list A)
  : list B * option exn :=
  match l with
  | [] => ([], None)
  | a :: rest =>
      match f a with
      | Ok b => let '(yielded, raised) := yield_each f rest in
                (b :: yielded, raised)
      | Raise e => ([], Some e)
      end
  end.

Section StartRequests.

(** The error the constructor of a request class raises for these
    arguments, if it raises one. *)
Variable refuses : Class_ → list Arg → gmap string Arg → option exn.

(** Reading a file of the [directives] directory, by its name: its text,
    or the error raised. *)
Variable read_directive : string → result string.

(** [start_requests()]: the value it gives to [using_splash], and the
    requests it yields. *)
Definition start_requests (self : t) : bool * (list Request * option exn) :=
  let using_splash := Settings.enabled (settings self) "SPLASH_URL" in
  let kwargs : gmap string Arg :=
    {[ "callback" := Plain (ACallback "parse") ]} in
  if using_splash
  then
    match read_directive (lua_source self) with
    | Raise e => (using_splash, ([], Some e))
    | Ok lua =>
        (using_splash,
         yield_each
           (λ url, splash_request refuses lua [Plain (AStr url)] kwargs)
           (start_urls self))
    end
  else
    (using_splash,
     yield_each (λ url, build refuses ScrapyRequest [Plain (AStr url)] kwargs)
       (start_urls self)).

End StartRequests.

End BaseSpider.

(** ** Notions used to state the further properties *)

(** No setting of [settings] was set with a priority above [p]. *)
Definition at_most (p : Z) (settings : gmap string (Z * Settings.Value))
  : Prop :=
  ∀ n q v, settings !! n = Some (q, v) → (q ≤ p)%Z.

(** Whether [crawl_runner] is given the address of a Splash service. *)
Definition with_splash (splash_url : option string) : bool :=
  match splash_url with
  | Some url => truthy url
  | None => false
  end.

(** The keyword arguments [passed] that a Splash request is to receive
    for the Lua source [lua_source] when the caller gave [kwargs]: the
    endpoint [execute], under [args] a dictionary that holds the Lua source
    and otherwise what the caller put under [args], and every other
    keyword argument of the caller. *)
Definition passed_on (lua_source : string)
    (kwargs passed : gmap string BaseSpider.Arg) : Prop :=
  passed !! "endpoint" = Some (BaseSpider.Plain (BaseSpider.AStr "execute"))
  ∧ (∃ d,
       passed !! "args" = Some (BaseSpider.Dict d)
       ∧ d !! "lua_source" = Some (BaseSpider.AStr lua_source)
       ∧ ∀ k, k ≠ "lua_source" →
           d !! k
           = match kwargs !! "args" with
             | Some (BaseSpider.Dict given) => given !! k
             | _ => None
             end)
  ∧ ∀ k, k ≠ "endpoint" → k ≠ "args" → passed !! k = kwargs !! k.

(** The requests yielded for [urls] when the request for a URL is to be
    [expected url]: one for each URL, in order, up to the first URL whose
    request the class refuses, and then the error of this refusal. *)
Definition yields
    (refuses : BaseSpider.Class_ → list BaseSpider.Arg
               → gmap string BaseSpider.Arg → option exn)
    (expected : string → BaseSpider.Request) (urls : list string)
    (requests : list BaseSpider.Request) (error : option exn) : Prop :=
  let refusal url :=
    refuses (BaseSpider.class (expected url)) (BaseSpider.args (expected url))
      (BaseSpider.kwargs (expected url)) in
  requests = expected <$> take (length requests) urls
  ∧ (∀ url, url ∈ take (length requests) urls → refusal url = None)
  ∧ match error with
    | None => length requests = length urls
    | Some e => ∃ url, urls !! length requests = Some url
                       ∧ refusal url = Some e
    end.

(** More sample data. *)
Module MoreSamples.

(** A request class that refuses a URL without a scheme. *)
Definition needs_scheme (cls : BaseSpider.Class_) (args : list BaseSpider.Arg)
    (kwargs : gmap string BaseSpider.Arg) : option exn :=
  match args with
  | BaseSpider.Plain (BaseSpider.AStr url) :: _ =>
      if str_in "://" url then None else Some ValueError
  | _ => Some TypeError
  end.

Definition csrf : Cookie :=
  {| name := "csrf"; value := Some "t0k3n"; domain := "x.com";
     Cookies.path := "/"; port := None; secure := true; expires := None;
     discard := true; comment := None |}.

(** A spider that has found both forms. *)
Definition done : FormSpider.t :=
  {| FormSpider.credentials :=
       {| FormSpider.login_url := Some "http://x.com/login";
          FormSpider.registration_url := Some "http://x.com/join" |};
     FormSpider.found_login := true;
     FormSpider.found_registration := true;
     FormSpider.committed := [] |}.

Definition no_credentials : FormSpider.Credentials :=
  {| FormSpider.login_url := None; FormSpider.registration_url := None |}.

(** A page with a login form and one link. *)
Definition login_page : Response HtmlForm.t :=
  {| response_url := "http://x.com/login";
     response_text := "<html></html>";
     base_url := "http://x.com/login";
     extract_forms := [ (Samples.login_form, Samples.login_meta) ];
     extract_links := [ Samples.link "/about" "" "About Us" ];
     cookiejar := None;
     get_cookiejar := None;
     meta_initial_cookies := [] |}.

End MoreSamples.

(** ** Properties *)

(** *** The verdict of a login attempt *)

Section Verdict.
Context {Form : Type}.
Implicit Types (self : LoginSpider.t) (response : Response Form).
Implicit Types (env : LoginSpider.Env Form).

Lemma map_dict_of (l : list Cookie) : map dict_of l = l.
Proof. induction l as [|c l IH]; simpl; [done|]. by rewrite IH. Qed.

Lemma or_empty_Some {A : Type} (l : list A) : or_empty (Some l) = l.
Proof. by destruct l. Qed.

Lemma or_empty_default {A : Type} (jar : option (list A)) :
  or_empty jar = default [] jar.
Proof. by destruct jar as [[|a l]|]. Qed.

Lemma elem_of_cookie_tuples (x : CookieTuple) (l : list CookieDict) :
  x ∈ _cookie_tuples l
  ↔ ∃ c, x = (name c, value c, domain c, Cookies.path c, port c) ∧ c ∈ l.
Proof.
  unfold _cookie_tuples. induction l as [|c l IH]; simpl.
  - split; [by intros ?%elem_of_nil|]. by intros (c & _ & ?%elem_of_nil).
  - rewrite elem_of_cons, IH. split.
    + intros [->|(c' & -> & Hin)].
      * exists c. split; [done | by left].
      * exists c'. split; [done | by right].
    + intros (c' & -> & [->|Hin]%elem_of_cons); [by left|].
      right. by exists c'.
Qed.

Lemma tuple_set_mono (l l' : list CookieDict) :
  (∀ c, c ∈ l → c ∈ l') → tuple_set l ⊆ tuple_set l'.
Proof.
  intros Hsub x. unfold tuple_set. rewrite !elem_of_list_to_set.
  rewrite !elem_of_cookie_tuples. intros (c & -> & Hin).
  exists c. split; [done | by apply Hsub].
Qed.

Lemma tuple_set_same (l l' : list CookieDict) :
  (∀ c, c ∈ l ↔ c ∈ l') → tuple_set l = tuple_set l'.
Proof.
  intros Hsame. apply set_eq. intros x. split.
  - apply tuple_set_mono. intros c. apply Hsame.
  - apply tuple_set_mono. intros c. apply Hsame.
Qed.

Lemma or_empty_cookie_dicts (jar : option (list Cookie)) :
  or_empty (cookie_dicts jar) = or_empty jar.
Proof.
  destruct jar as [l|]; simpl; [|done]. rewrite map_dict_of.
  by destruct l.
Qed.

Lemma same_identity_tuple (c c' : Cookie) :
  same_identity c c'
  ↔ (name c, value c, domain c, Cookies.path c, port c)
    = (name c', value c', domain c', Cookies.path c', port c').
Proof.
  unfold same_identity. split.
  - by intros (-> & -> & -> & -> & ->).
  - intros Heq. by simplify_eq.
Qed.

(** The comparison of the two sets of tuples, read on the cookies. *)
Lemma tuple_set_subseteq (final initial : list Cookie) :
  tuple_set final ⊆ tuple_set initial
  ↔ ∀ c, c ∈ final → ∃ c0, c0 ∈ initial ∧ same_identity c0 c.
Proof.
  unfold tuple_set. split.
  - intros Hsub c Hc.
    assert (Hin : (name c, value c, domain c, Cookies.path c, port c)
                  ∈ _cookie_tuples initial).
    { apply (elem_of_list_to_set (C := gset CookieTuple)), Hsub.
      apply elem_of_list_to_set, elem_of_cookie_tuples. by exists c. }
    apply elem_of_cookie_tuples in Hin as (c0 & Heq & Hc0).
    exists c0. split; [done|]. by apply same_identity_tuple.
  - intros Hold x. rewrite !elem_of_list_to_set, !elem_of_cookie_tuples.
    intros (c & -> & Hc). destruct (Hold c Hc) as (c0 & Hc0 & Hsame).
    exists c0. split; [|done]. symmetry. by apply same_identity_tuple.
Qed.

Lemma tuple_set_not_subseteq (final initial : list Cookie) :
  ¬ tuple_set final ⊆ tuple_set initial
  ↔ ∃ c, c ∈ final ∧ is_new initial c.
Proof.
  split.
  - intros Hnot. induction final as [|c final IH].
    + destruct Hnot. apply empty_subseteq.
    + destruct (decide (tuple_set [c] ⊆ tuple_set initial)) as [Hc|Hc].
      * destruct IH as (c' & Hc' & Hnew).
        { intros Hsub. apply Hnot. rewrite tuple_set_subseteq in *.
          intros c1 [->|Hc1]%elem_of_cons; [|by apply Hsub].
          apply Hc. by left. }
        exists c'. split; [by right | done].
      * exists c. split; [by left|]. intros c0 Hc0 Hsame. apply Hc.
        apply tuple_set_subseteq. intros c1 [->|Hc1]%elem_of_cons;
          [by exists c0 | by apply elem_of_nil in Hc1].
  - intros (c & Hc & Hnew) Hsub. rewrite tuple_set_subseteq in Hsub.
    destruct (Hsub c Hc) as (c0 & Hc0 & Hsame). by apply (Hnew c0).
Qed.

Lemma shows_or_empty response (final : list Cookie) :
  shows response final → or_empty (_response_cookies response) = final.
Proof.
  unfold shows, _response_cookies. rewrite or_empty_default.
  by destruct (cookiejar response) as [jar|]; intros ->.
Qed.

Lemma parse_login_subset env self response :
  tuple_set (or_empty (_response_cookies response))
    ⊆ tuple_set (meta_initial_cookies response) →
  LoginSpider.parse_login env self response
  = if LoginSpider.using_splash self
    then
      match LoginSpider.page_data env response with
      | Raise e => Raise e
      | Ok screenshot =>
          match LoginSpider.debug_screenshot env "page" screenshot with
          | Raise e => Raise e
          | Ok effects => Ok (effects, LoginSpider.Failed "badauth")
          end
      end
    else Ok ([], LoginSpider.Failed "badauth").
Proof.
  intros Hsub. unfold LoginSpider.parse_login. simpl. rewrite map_dict_of.
  by rewrite bool_decide_eq_true_2.
Qed.

Lemma parse_login_not_subset env self response :
  ¬ tuple_set (or_empty (_response_cookies response))
      ⊆ tuple_set (meta_initial_cookies response) →
  LoginSpider.parse_login env self response
  = Ok ([], LoginSpider.LoggedIn (or_empty (_response_cookies response))
              (response_url response)).
Proof.
  intros Hsub. unfold LoginSpider.parse_login. simpl. rewrite map_dict_of.
  by rewrite bool_decide_eq_false_2.
Qed.

(** With the tuples of the final cookies among those of the initial ones,
    a call that returns an item returns [badauth]. *)
Lemma parse_login_subset_item env self response effects item :
  tuple_set (or_empty (_response_cookies response))
    ⊆ tuple_set (meta_initial_cookies response) →
  LoginSpider.parse_login env self response = Ok (effects, item) →
  item = LoginSpider.Failed "badauth".
Proof.
  intros Hsub. rewrite (parse_login_subset _ _ _ Hsub).
  destruct (LoginSpider.using_splash self); [|by intros [= _ <-]].
  destruct (LoginSpider.page_data env response) as [screenshot|e]; [|done].
  destruct (LoginSpider.debug_screenshot env "page" screenshot); [|done].
  by intros [= _ <-].
Qed.

Lemma tuple_set_cons_nonempty (c : CookieDict) (l : list CookieDict) :
  ¬ tuple_set (c :: l) ⊆ tuple_set [].
Proof. unfold tuple_set. simpl. set_solver. Qed.

Lemma succeeded_spec env self response :
  succeeded (LoginSpider.parse_login env self response)
  = negb (bool_decide
            (tuple_set (or_empty (_response_cookies response))
               ⊆ tuple_set (meta_initial_cookies response))).
Proof.
  case_bool_decide as Hsub.
  - destruct (LoginSpider.parse_login env self response)
      as [[effects item]|e] eqn:Hrun; [|done].
    by rewrite (parse_login_subset_item _ _ _ _ _ Hsub Hrun).
  - by rewrite (parse_login_not_subset _ _ _ Hsub).
Qed.

End Verdict.




(** Scenario D of the specification, and the same attempt with Splash
    and a debug screenshot that is written. *)
Example scenario_D :
  LoginSpider.parse_login Samples.env Samples.spider
    (Samples.page [] (Some [Samples.sid]) [Samples.sid])
  = Ok ([], LoginSpider.Failed "badauth").
Proof. vm_compute. reflexivity. Qed.

Example scenario_D_with_screenshot :
  LoginSpider.parse_login Samples.debug_env Samples.splash_spider
    (Samples.rendered_page (Some [Samples.sid]) [Samples.sid])
  = Ok ([ LoginSpider.Wrote
            "/srv/autologin/static/browser/0b3c6a52-6a9e-4a63-9a0e-8c2f7d1e5b11.jpeg"
            "JFIF";
          LoginSpider.LoggedDebug
            "saved page screenshot to /srv/autologin/static/browser/0b3c6a52-6a9e-4a63-9a0e-8c2f7d1e5b11.jpeg" ],
        LoginSpider.Failed "badauth").
Proof. vm_compute. reflexivity. Qed.

(** *** Cookie identity *)

(** C4. Two cookies have the same tuple exactly when they agree on name,
    value, domain, path and port, and this decides the verdict of a login
    attempt, whatever the other attributes of the cookies are: when every
    cookie the response shows agrees on the five with a cookie the request
    carried, the attempt does not succeed, and ends with [badauth] without
    Splash; when a cookie the response shows differs from every cookie the
    request carried in one of the five, the attempt succeeds, so a change
    of the value alone is a success; and two attempts whose cookies agree
    on the five, one by one, get the same verdict. *)
Theorem cookie_identity_is_the_five_tuple {Form : Type} :
  (∀ c c' : Cookie,
     _cookie_tuples [c] = _cookie_tuples [c']
     ↔ name c = name c' ∧ value c = value c' ∧ domain c = domain c'
       ∧ Cookies.path c = Cookies.path c' ∧ port c = port c')
  ∧ (∀ (env : LoginSpider.Env Form) (self : LoginSpider.t)
       (r : Response Form) (final : list Cookie),
       shows r final →
       (∀ c, c ∈ final →
          ∃ c0, c0 ∈ meta_initial_cookies r
                ∧ name c0 = name c ∧ value c0 = value c
                ∧ domain c0 = domain c ∧ Cookies.path c0 = Cookies.path c
                ∧ port c0 = port c) →
       succeeded (LoginSpider.parse_login env self r) = false
       ∧ (LoginSpider.using_splash self = false →
          LoginSpider.parse_login env self r
          = Ok ([], LoginSpider.Failed "badauth")))
  ∧ (∀ (env : LoginSpider.Env Form) (self : LoginSpider.t)
       (r : Response Form) (final : list Cookie) (c : Cookie),
       shows r final →
       c ∈ final →
       (∀ c0, c0 ∈ meta_initial_cookies r →
          name c0 ≠ name c ∨ value c0 ≠ value c ∨ domain c0 ≠ domain c
          ∨ Cookies.path c0 ≠ Cookies.path c ∨ port c0 ≠ port c) →
       LoginSpider.parse_login env self r
       = Ok ([], LoginSpider.LoggedIn final (response_url r)))
  ∧ (∀ (env : LoginSpider.Env Form) (self : LoginSpider.t)
       (r : Response Form) (c c' : Cookie),
       meta_initial_cookies r = [c] →
       shows r [c'] →
       name c = name c' → domain c = domain c' →
       Cookies.path c = Cookies.path c' → port c = port c' →
       value c ≠ value c' →
       LoginSpider.parse_login env self r
       = Ok ([], LoginSpider.LoggedIn [c'] (response_url r)))
  ∧ (∀ (env : LoginSpider.Env Form) (self : LoginSpider.t)
       (r r' : Response Form) (final final' : list Cookie),
       shows r final →
       shows r' final' →
       Forall2 same_identity (meta_initial_cookies r)
         (meta_initial_cookies r') →
       Forall2 same_identity final final' →
       succeeded (LoginSpider.parse_login env self r)
       = succeeded (LoginSpider.parse_login env self r')).
Proof.
  assert (Hnew : ∀ (env : LoginSpider.Env Form) (self : LoginSpider.t)
                   (r : Response Form) (final : list Cookie) (c : Cookie),
            shows r final → c ∈ final → is_new (meta_initial_cookies r) c →
            LoginSpider.parse_login env self r
            = Ok ([], LoginSpider.LoggedIn final (response_url r))).
  { intros env self r final c Hshows Hc Hc_new.
    rewrite <- (shows_or_empty _ _ Hshows). apply parse_login_not_subset.
    rewrite (shows_or_empty _ _ Hshows). apply tuple_set_not_subseteq.
    by exists c. }
  assert (Hsets : ∀ l l' : list Cookie,
            Forall2 same_identity l l' → tuple_set l = tuple_set l').
  { intros l l' Hall. unfold tuple_set. f_equal.
    induction Hall as [|c c' l l' Hsame _ IH]; [done|].
    simpl. f_equal; [|exact IH]. by apply same_identity_tuple. }
  split_and!.
  - intros c c'. simpl. split.
    + intros Heq. by simplify_eq.
    + intros (-> & -> & -> & -> & ->). done.
  - intros env self r final Hshows Hold.
    assert (Hsub : tuple_set (or_empty (_response_cookies r))
                     ⊆ tuple_set (meta_initial_cookies r)).
    { rewrite (shows_or_empty _ _ Hshows). by apply tuple_set_subseteq. }
    split.
    + rewrite succeeded_spec. by rewrite bool_decide_eq_true_2.
    + intros Hsplash. rewrite (parse_login_subset _ _ _ Hsub).
      by rewrite Hsplash.
  - intros env self r final c Hshows Hc Hdiffers.
    apply (Hnew env self r final c Hshows Hc).
    intros c0 Hc0 (? & ? & ? & ? & ?).
    destruct (Hdiffers c0 Hc0) as [?|[?|[?|[?|?]]]]; done.
  - intros env self r c c' Hinit Hshows _ _ _ _ Hval.
    apply (Hnew env self r [c'] c' Hshows); [by left|].
    rewrite Hinit. intros c0 [->|Hc0]%elem_of_cons; [by intros (_ & ? & _)|].
    by apply elem_of_nil in Hc0.
  - intros env self r r' final final' Hshows Hshows' Hinit Hfin.
    rewrite !succeeded_spec.
    rewrite (shows_or_empty _ _ Hshows), (shows_or_empty _ _ Hshows').
    by rewrite (Hsets _ _ Hinit), (Hsets _ _ Hfin).
Qed.

(** A cookie that changes only its value, and one that changes only its
    expiry and secure flag. *)
Example value_change_is_success :
  succeeded (LoginSpider.parse_login Samples.env Samples.spider
    (Samples.page []
       (Some [ {| name := "sid"; value := Some "xyz"; domain := "x.com";
                  Cookies.path := "/"; port := Some "443"; secure := false;
                  expires := None; discard := true; comment := None |} ])
       [Samples.sid]))
  = true.
Proof. vm_compute. reflexivity. Qed.

Example expiry_change_is_failure :
  LoginSpider.parse_login Samples.env Samples.spider
    (Samples.page []
       (Some [ {| name := "sid"; value := Some "abc"; domain := "x.com";
                  Cookies.path := "/"; port := Some "443"; secure := true;
                  expires := Some 1700000000%Z; discard := false;
                  comment := None |} ])
       [Samples.sid])
  = Ok ([], LoginSpider.Failed "badauth").
Proof. vm_compute. reflexivity. Qed.

(** *** The field scan of [login_params] *)

Lemma username_type_not_password (t : string) :
  t ∈ USERNAME_FIELD_TYPES → t ∉ PASSWORD_FIELD_TYPES.
Proof.
  unfold USERNAME_FIELD_TYPES, PASSWORD_FIELD_TYPES.
  rewrite !elem_of_union, !elem_of_singleton.
  intros [[->| ->]| ->]; discriminate.
Qed.

Lemma last_of_type_nil (types : gset string) : last_of_type types [] = None.
Proof. reflexivity. Qed.

Lemma last_of_type_cons (types : gset string) (n t : string)
    (rest : list (string * string)) :
  last_of_type types ((n, t) :: rest)
  = match last_of_type types rest with
    | Some x => Some x
    | None => if decide (t ∈ types) then Some n else None
    end.
Proof.
  unfold last_of_type. destruct (decide (t ∈ types)) as [Hin|Hout].
  - rewrite filter_cons_True by done. rewrite last_cons.
    by destruct (last (filter _ rest)).
  - rewrite filter_cons_False by done. by destruct (last (filter _ rest)).
Qed.

Lemma scan_fields_from (fields : list (string * string))
    (u p : option string) :
  fold_left scan_step fields (u, p)
  = (match last_of_type USERNAME_FIELD_TYPES fields with
     | Some x => Some x
     | None => u
     end,
     match last_of_type PASSWORD_FIELD_TYPES fields with
     | Some x => Some x
     | None => p
     end).
Proof.
  revert u p. induction fields as [|[n t] rest IH]; intros u p; [done|].
  simpl fold_left. rewrite !last_of_type_cons. unfold scan_step.
  case_bool_decide as Hu.
  - rewrite IH. rewrite decide_True by done.
    rewrite (decide_False (P := t ∈ PASSWORD_FIELD_TYPES))
      by by apply username_type_not_password.
    by destruct (last_of_type USERNAME_FIELD_TYPES rest),
                (last_of_type PASSWORD_FIELD_TYPES rest).
  - rewrite (decide_False (P := t ∈ USERNAME_FIELD_TYPES)) by done.
    case_bool_decide as Hp; rewrite IH.
    + rewrite decide_True by done.
      by destruct (last_of_type USERNAME_FIELD_TYPES rest),
                  (last_of_type PASSWORD_FIELD_TYPES rest).
    + rewrite decide_False by done.
      by destruct (last_of_type USERNAME_FIELD_TYPES rest),
                  (last_of_type PASSWORD_FIELD_TYPES rest).
Qed.

Lemma scan_fields_last (fields : list (string * string)) :
  scan_fields fields
  = (last_of_type USERNAME_FIELD_TYPES fields,
     last_of_type PASSWORD_FIELD_TYPES fields).
Proof.
  unfold scan_fields. rewrite scan_fields_from.
  by destruct (last_of_type USERNAME_FIELD_TYPES fields),
              (last_of_type PASSWORD_FIELD_TYPES fields).
Qed.

Lemma last_of_type_None (types : gset string) (fields : list (string * string)) :
  last_of_type types fields = None ↔ ∀ n t, (n, t) ∈ fields → t ∉ types.
Proof.
  induction fields as [|[n t] rest IH].
  - split; [|done]. intros _ n t Hin. by apply elem_of_nil in Hin.
  - rewrite last_of_type_cons. split.
    + intros Hnone n' t' Hin.
      destruct (last_of_type types rest) eqn:Hrest; [done|].
      destruct (decide (t ∈ types)); [done|].
      apply elem_of_cons in Hin as [Heq|Hin]; [by simplify_eq|].
      by apply (proj1 IH eq_refl n').
    + intros Hall.
      rewrite (proj2 IH) by (intros n' t' Hin; apply (Hall n'); by right).
      rewrite decide_False; [done|]. apply (Hall n). by left.
Qed.

Lemma last_of_type_Some (types : gset string) (fields : list (string * string))
    (n : string) :
  last_of_type types fields = Some n
  ↔ ∃ before t after,
      fields = (before ++ (n, t) :: after)%list ∧ t ∈ types
      ∧ ∀ n' t', (n', t') ∈ after → t' ∉ types.
Proof.
  revert n. induction fields as [|[m t] rest IH]; intros n.
  - split; [done|]. intros (before & t & after & Heq & _).
    by destruct before.
  - rewrite last_of_type_cons. split.
    + destruct (last_of_type types rest) as [x|] eqn:Hrest.
      * intros [= ->].
        destruct (proj1 (IH n) eq_refl) as (before & t' & after & -> & Ht & Hafter).
        by exists ((m, t) :: before), t', after.
      * destruct (decide (t ∈ types)) as [Ht|]; [|done]. intros [= ->].
        exists [], t, rest. split_and!; [done..|]. by apply last_of_type_None.
    + intros (before & t' & after & Heq & Ht & Hafter).
      destruct before as [|b before]; simpl in Heq; simplify_eq.
      * rewrite (proj2 (last_of_type_None types after)) by done.
        by rewrite decide_True.
      * assert (Hrest : last_of_type types (before ++ (n, t') :: after)%list = Some n).
        { apply IH. by exists before, t', after. }
        by rewrite Hrest.
Qed.

(** *** Running [login_params] *)

Section Running.
Context {Form : Type} `{FormElement Form}.
Variable urljoin : string -> option string -> string.
Implicit Types (f : Form) (meta : Meta).

Lemma login_params_None url username password meta f :
  last_of_type USERNAME_FIELD_TYPES (fields meta) = None
  ∨ last_of_type PASSWORD_FIELD_TYPES (fields meta) = None →
  login_params urljoin url username password meta f = (Ok None, f).
Proof.
  intros Hnone. unfold login_params. rewrite scan_fields_last.
  destruct Hnone as [-> | ->]; [done|].
  by destruct (last_of_type USERNAME_FIELD_TYPES (fields meta)).
Qed.

Lemma append_submits_reads fields_ acc f :
  snd (append_submits fields_ acc f) = f.
Proof.
  revert acc. induction fields_ as [|[n t] rest IH]; intros acc; [done|].
  simpl. case_bool_decide; [|by apply IH].
  unfold bind, lookup_field. destruct (fields_get f n); [apply IH | done].
Qed.

Lemma append_submits_Ok fields_ acc f submit_values f' :
  append_submits fields_ acc f = (Ok submit_values, f') →
  ∃ submits,
    submit_values = (acc ++ submits)%list
    ∧ Forall2 (λ field pair, pair.1 = field.1 ∧ fields_get f field.1 = Ok pair.2)
        (filter (λ field, field.2 ∈ SUBMIT_TYPES) fields_) submits.
Proof.
  revert acc. induction fields_ as [|[n t] rest IH]; intros acc; simpl.
  - intros [= <- _]. exists []. by rewrite app_nil_r.
  - case_bool_decide as Ht.
    + rewrite filter_cons_True by done.
      unfold bind, lookup_field. destruct (fields_get f n) as [v|e] eqn:Hget; [|done].
      intros Hrest. apply IH in Hrest as (submits & -> & Hall).
      exists ((n, v) :: submits). split; [by rewrite <- app_assoc|].
      by constructor.
    + rewrite filter_cons_False by done. apply IH.
Qed.

(** What a call that returns parameters has done. *)
Lemma login_params_Some url username password meta f params f' :
  login_params urljoin url username password meta f = (Ok (Some params), f') →
  ∃ username_field password_field f1 f2 submits,
    last_of_type USERNAME_FIELD_TYPES (fields meta) = Some username_field
    ∧ last_of_type PASSWORD_FIELD_TYPES (fields meta) = Some password_field
    ∧ check_checkboxes (fields meta) f = (Ok tt, f1)
    ∧ fields_set f1 username_field username = Ok f2
    ∧ fields_set f2 password_field password = Ok f'
    ∧ Forall2 (λ field pair, pair.1 = field.1 ∧ fields_get f' field.1 = Ok pair.2)
        (filter (λ field, field.2 ∈ SUBMIT_TYPES) (fields meta)) submits
    ∧ params
      = {| params_url :=
             match url with
             | None => action f'
             | Some base => Some (urljoin base (action f'))
             end;
           params_method := method f';
           params_headers :=
             if String.eqb (method f') "POST" then DEFAULT_POST_HEADERS else ∅;
           params_body :=
             urlencode
               (map (λ kv, (kv.1, Some kv.2)) (form_values f') ++ submits)%list |}.
Proof.
  unfold login_params. rewrite scan_fields_last.
  destruct (last_of_type USERNAME_FIELD_TYPES (fields meta)) as [u|]; [|done].
  destruct (last_of_type PASSWORD_FIELD_TYPES (fields meta)) as [p|]; [|done].
  unfold bind at 1.
  destruct (check_checkboxes (fields meta) f) as [[[]|e] f1] eqn:Hcheck; [|done].
  unfold bind at 1. unfold assign at 1.
  destruct (fields_set f1 u username) as [f2|e] eqn:Hu; [|done].
  unfold bind at 1. unfold assign at 1.
  destruct (fields_set f2 p password) as [f3|e] eqn:Hp; [|done].
  unfold bind at 1. unfold read at 1.
  unfold bind at 1.
  destruct (append_submits (fields meta) _ f3) as [[sv|e] f4] eqn:Happ; [|done].
  pose proof (append_submits_reads (fields meta)
                (map (λ kv, (kv.1, Some kv.2)) (form_values f3)) f3) as Hsame.
  rewrite Happ in Hsame. simpl in Hsame. subst f4.
  apply append_submits_Ok in Happ as (submits & -> & Hall).
  unfold bind, read, ret. intros [= <- <-].
  by exists u, p, f1, f2, submits.
Qed.

End Running.

(** *** Which fields receive the credentials *)

(** C2, as stated, fails. The scan does not pick the first field of each
    kind: with two fields for the user and two for the password it is not
    [login] and [pw] that are selected. *)
Lemma scan_does_not_select_first :
  ¬ selects_first_fields (fields Samples.meta_twice).
Proof. unfold selects_first_fields. vm_compute. intros [=]. Qed.

(** C2, amended. The scan selects the last field whose type is a username
    type and the last field whose type is the password type: a field is
    selected exactly when its type is of the kind and no later field has a
    type of that kind, and none is selected exactly when no field has such
    a type; a call that returns parameters has assigned the username and
    the password to these two fields, in this order, after the checkboxes. *)
Theorem scan_fields_selects_last_fields {Form : Type} `{FormElement Form}
    (urljoin : string -> option string -> string) (meta : Meta) :
  scan_fields (fields meta)
  = (last_of_type USERNAME_FIELD_TYPES (fields meta),
     last_of_type PASSWORD_FIELD_TYPES (fields meta))
  ∧ (∀ types name,
       last_of_type types (fields meta) = Some name
       ↔ ∃ before t after,
           fields meta = (before ++ (name, t) :: after)%list ∧ t ∈ types
           ∧ ∀ n' t', (n', t') ∈ after → t' ∉ types)
  ∧ (∀ types,
       last_of_type types (fields meta) = None
       ↔ ∀ n t, (n, t) ∈ fields meta → t ∉ types)
  ∧ (∀ url username password (f f' : Form) params,
       login_params urljoin url username password meta f = (Ok (Some params), f') →
       ∃ username_field password_field f1 f2,
         last_of_type USERNAME_FIELD_TYPES (fields meta) = Some username_field
         ∧ last_of_type PASSWORD_FIELD_TYPES (fields meta) = Some password_field
         ∧ check_checkboxes (fields meta) f = (Ok tt, f1)
         ∧ fields_set f1 username_field username = Ok f2
         ∧ fields_set f2 password_field password = Ok f').
Proof.
  split_and!.
  - apply scan_fields_last.
  - intros types name. apply last_of_type_Some.
  - intros types. apply last_of_type_None.
  - intros url username password f f' params Hcall.
    apply login_params_Some in Hcall
      as (u & p & f1 & f2 & submits & Hu & Hp & Hcheck & Hset1 & Hset2 & _).
    by exists u, p, f1, f2.
Qed.

(** On the form with two fields of each kind, the later ones are filled in
    and the earlier ones are left empty. *)
Example later_fields_are_overwritten :
  HtmlForm.inputs
    (snd (login_params HtmlForm.urljoin (Some "http://x.com/") "alice" "s3cret"
            Samples.meta_twice Samples.form_twice))
  = [ ("login", HtmlForm.TextInput None);
      ("mail", HtmlForm.TextInput (Some "alice"));
      ("pw", HtmlForm.TextInput None);
      ("pw2", HtmlForm.TextInput (Some "s3cret")) ].
Proof. vm_compute. reflexivity. Qed.

(** *** A form with no password field *)

Section NoLoginForm.
Context {Form : Type} `{FormElement Form}.
Variable urljoin : string -> option string -> string.
Variable env : LoginSpider.Env Form.

(** Without a username field or without a password field,
    [login_params] returns [None] whatever the other fields are. *)
Lemma login_params_missing_field url username password meta (f : Form) :
  (∀ n t, (n, t) ∈ fields meta → t ∉ USERNAME_FIELD_TYPES)
  ∨ (∀ n t, (n, t) ∈ fields meta → t ∉ PASSWORD_FIELD_TYPES) →
  login_params urljoin url username password meta f = (Ok None, f).
Proof.
  intros Hmissing. apply login_params_None.
  destruct Hmissing as [Hu|Hp]; [left|right]; by apply last_of_type_None.
Qed.

(** [parse] then subscripts [None]. *)
Lemma parse_missing_field self (response : Response Form) form_ meta :
  LoginSpider.forms_error env (response_text response) = None →
  LoginSpider.get_login_form (extract_forms response) = Some (form_, meta) →
  (∀ n t, (n, t) ∈ fields meta → t ∉ USERNAME_FIELD_TYPES)
  ∨ (∀ n t, (n, t) ∈ fields meta → t ∉ PASSWORD_FIELD_TYPES) →
  LoginSpider.parse urljoin env self response = Raise TypeError.
Proof.
  intros Hforms Hform Hmissing. unfold LoginSpider.parse.
  rewrite Hforms, Hform. by rewrite login_params_missing_field.
Qed.

Lemma parse_no_form self (response : Response Form) :
  LoginSpider.forms_error env (response_text response) = None →
  LoginSpider.get_login_form (extract_forms response) = None →
  LoginSpider.parse urljoin env self response
  = Ok (inl (LoginSpider.Failed "nologinform")).
Proof.
  intros Hforms Hform. unfold LoginSpider.parse. by rewrite Hforms, Hform.
Qed.

End NoLoginForm.

(** C5. On Scenario B, a login form with a field for the user and a
    checkbox but no password field, [login_params] returns [None] and
    leaves the form as it is, and [parse] then raises [TypeError] where a
    page with no login form gives the item with error [nologinform]. *)
Theorem scenario_B_raises_TypeError :
  login_params HtmlForm.urljoin (Some "http://x.com/") "alice" "s3cret"
    Samples.meta_B Samples.form_B
  = (Ok None, Samples.form_B)
  ∧ LoginSpider.parse HtmlForm.urljoin Samples.env Samples.spider
      (Samples.page [(Samples.form_B, Samples.meta_B)] None [])
    = Raise TypeError
  ∧ LoginSpider.parse HtmlForm.urljoin Samples.env Samples.spider
      (Samples.page [] None [])
    = Ok (inl (LoginSpider.Failed "nologinform")).
Proof. vm_compute. split_and!; reflexivity. Qed.

(** *** The submission *)

Lemma default_post_headers_not_empty :
  ({[ "Content-Type" := "application/x-www-form-urlencoded" ]} : gmap string string) ≠ ∅.
Proof. apply insert_non_empty. Qed.

(** C6. When [login_params] returns parameters, their body is the
    url-encoding of the values of the form as it then stands, followed by
    one pair for each field typed as a submit button, in the order of the
    fields, carrying the value the form holds for it; the method is the
    form's; and the headers are the url-encoded content type exactly when
    the method is POST, and empty otherwise. *)
Theorem login_params_submission {Form : Type} `{FormElement Form}
    (urljoin : string -> option string -> string)
    (url : option string) (username password : string) (meta : Meta)
    (f f' : Form) (params : Params) :
  login_params urljoin url username password meta f = (Ok (Some params), f') →
  ∃ submits : list (string * option string),
    Forall2 (λ field pair, pair.1 = field.1 ∧ fields_get f' field.1 = Ok pair.2)
      (filter (λ field, field.2 ∈ SUBMIT_TYPES) (fields meta)) submits
    ∧ params_body params
      = urlencode (map (λ kv, (kv.1, Some kv.2)) (form_values f') ++ submits)%list
    ∧ params_method params = method f'
    ∧ (params_headers params
       = {[ "Content-Type" := "application/x-www-form-urlencoded" ]}
       ↔ method f' = "POST")
    ∧ (params_headers params = ∅ ↔ method f' ≠ "POST").
Proof.
  intros Hcall.
  apply login_params_Some in Hcall
    as (u & p & f1 & f2 & submits & _ & _ & _ & _ & _ & Hsubmits & ->).
  exists submits. simpl. split_and!; [done..| |].
  - destruct (String.eqb_spec (method f') "POST") as [Hpost|Hpost].
    + done.
    + split; [|done]. intros Hheaders. symmetry in Hheaders.
      by apply default_post_headers_not_empty in Hheaders.
  - destruct (String.eqb_spec (method f') "POST") as [Hpost|Hpost].
    + split; [|done]. intros Hheaders.
      by apply default_post_headers_not_empty in Hheaders.
    + done.
Qed.

(** C6 on the sample form. *)
Lemma login_params_submission_sample :
  login_params HtmlForm.urljoin (Some "http://x.com/") "alice" "s3cret"
    Samples.login_meta Samples.login_form
  = (Ok (Some Samples.submitted_params), Samples.submitted_form)
  ∧ ∃ submits : list (string * option string),
      Forall2 (λ field pair,
                 pair.1 = field.1
                 ∧ fields_get Samples.submitted_form field.1 = Ok pair.2)
        (filter (λ field, field.2 ∈ SUBMIT_TYPES) (fields Samples.login_meta))
        submits
      ∧ params_body Samples.submitted_params
        = urlencode (map (λ kv, (kv.1, Some kv.2))
                       (form_values Samples.submitted_form) ++ submits)%list
      ∧ params_method Samples.submitted_params = method Samples.submitted_form
      ∧ (params_headers Samples.submitted_params
         = {[ "Content-Type" := "application/x-www-form-urlencoded" ]}
         ↔ method Samples.submitted_form = "POST")
      ∧ (params_headers Samples.submitted_params = ∅
         ↔ method Samples.submitted_form ≠ "POST").
Proof.
  assert (Hcall :
    login_params HtmlForm.urljoin (Some "http://x.com/") "alice" "s3cret"
      Samples.login_meta Samples.login_form
    = (Ok (Some Samples.submitted_params), Samples.submitted_form))
    by (vm_compute; reflexivity).
  split; [exact Hcall|].
  exact (login_params_submission HtmlForm.urljoin (Some "http://x.com/")
           "alice" "s3cret" Samples.login_meta Samples.login_form
           Samples.submitted_form Samples.submitted_params Hcall).
Defined.

(** *** A page with no cookie jar *)

Section InitialCookies.
Context {Form : Type} `{FormElement Form}.
Variable urljoin : string -> option string -> string.
Variable env : LoginSpider.Env Form.

(** The request [parse] returns carries the cookies of the page, or none
    when the page has no jar. *)
Lemma parse_initial_cookies self (response : Response Form) request :
  LoginSpider.parse urljoin env self response = Ok (inr request) →
  LoginSpider.initial_cookies request
  = or_empty (cookie_dicts (_response_cookies response)).
Proof.
  unfold LoginSpider.parse.
  destruct (LoginSpider.forms_error _ _); [done|].
  destruct (LoginSpider.get_login_form _) as [[form_ meta]|]; [|done].
  destruct (login_params _ _ _ _ _ _) as [[[params|]|e] f']; [|done..].
  simpl. destruct (LoginSpider.request_error _ _); [done|].
  by intros [= <-].
Qed.

End InitialCookies.

(** C10. When the page shows no cookie jar, the request that submits the
    form carries an empty list of initial cookies, and any response to it
    that shows at least one cookie ends the attempt with success. *)
Theorem missing_jar_is_empty_initial_set {Form : Type} `{FormElement Form}
    (urljoin : string -> option string -> string)
    (env : LoginSpider.Env Form)
    (self : LoginSpider.t) (response : Response Form)
    (request : LoginSpider.Request) :
  _response_cookies response = None →
  LoginSpider.parse urljoin env self response = Ok (inr request) →
  cookie_dicts (_response_cookies response) = None
  ∧ LoginSpider.initial_cookies request = []
  ∧ ∀ response' : Response Form,
      meta_initial_cookies response' = LoginSpider.initial_cookies request →
      or_empty (_response_cookies response') ≠ [] →
      LoginSpider.parse_login env self response'
      = Ok ([], LoginSpider.LoggedIn (or_empty (_response_cookies response'))
                  (response_url response')).
Proof.
  intros Hjar Hparse.
  apply parse_initial_cookies in Hparse. rewrite Hjar in Hparse |- *.
  simpl in Hparse. split_and!; [done..|].
  intros response' Hmeta Hcookies.
  apply parse_login_not_subset.
  rewrite Hmeta, Hparse.
  destruct (or_empty (_response_cookies response')) as [|c l]; [done|].
  apply tuple_set_cons_nonempty.
Qed.

(** C10 on a sample page without a jar, answered with one cookie. *)
Lemma missing_jar_sample :
  _response_cookies (Samples.page [(Samples.login_form, Samples.login_meta)] None [])
  = None
  ∧ LoginSpider.parse_login Samples.env Samples.spider
      (Samples.page [] (Some [Samples.sid]) [])
    = Ok ([], LoginSpider.LoggedIn [Samples.sid] "http://x.com/").
Proof.
  split; [reflexivity|].
  refine (proj2 (proj2
    (missing_jar_is_empty_initial_set HtmlForm.urljoin Samples.env
       Samples.spider
       (Samples.page [(Samples.login_form, Samples.login_meta)] None [])
       {| LoginSpider.request_url := Some "http://x.com/login";
          LoginSpider.request_method := "POST";
          LoginSpider.request_headers := DEFAULT_POST_HEADERS;
          LoginSpider.request_body :=
            "user=alice&pass=s3cret&remember=yes&keep=on&go=Log+in";
          LoginSpider.initial_cookies := [];
          LoginSpider.dont_filter := true |}
       _ _))
    (Samples.page [] (Some [Samples.sid]) []) _ _).
  - reflexivity.
  - vm_compute. reflexivity.
  - reflexivity.
  - simpl. discriminate.
Defined.

(** *** The priority of a link *)

Lemma startswith_spec (p s : string) :
  startswith p s = true ↔ ∃ b, s = p ++ b.
Proof.
  revert s. induction p as [|a p IH]; intros s; simpl.
  - split; [|done]. intros _. by exists s.
  - destruct s as [|c s].
    + split; [done|]. by intros [b Hb].
    + rewrite andb_true_iff, bool_decide_eq_true, IH. split.
      * intros [-> [b ->]]. by exists b.
      * intros [b [= -> ->]]. split; [done|]. by exists b.
Qed.

Lemma str_in_spec (p s : string) : str_in p s = true ↔ occurs_in p s.
Proof.
  unfold occurs_in. induction s as [|c s IH]; simpl.
  - rewrite orb_false_r, startswith_spec. split.
    + intros [b Hb]. by exists "", b.
    + intros ([|c a] & b & Hab); [|done]. by exists b.
  - rewrite orb_true_iff, startswith_spec, IH. split.
    + intros [[b Hb] | (a & b & ->)].
      * by exists "", b.
      * by exists (String c a), b.
    + intros ([|c' a] & b & Hab).
      * left. by exists b.
      * right. simpl in Hab. injection Hab as -> ->. by exists a, b.
Qed.

Lemma append_empty_r (s : string) : s ++ "" = s.
Proof.
  induction s as [|c s IH]; [done|].
  change (String c (s ++ "") = String c s). by rewrite IH.
Qed.

Lemma append_assoc (a b c : string) : (a ++ b) ++ c = a ++ b ++ c.
Proof.
  induction a as [|x a IH]; [done|].
  change (String x ((a ++ b) ++ c) = String x (a ++ b ++ c)). by rewrite IH.
Qed.

Lemma relative_url_parts (parts : SplitResult) :
  relative_url parts
  = Text.path parts
    ++ (if truthy (query parts) then "?" ++ query parts else "")
    ++ (if truthy (fragment parts) then "#" ++ fragment parts else "").
Proof.
  unfold relative_url, urlunsplit. simpl.
  destruct (truthy (query parts)), (truthy (fragment parts));
    by rewrite ?append_empty_r, ?append_assoc.
Qed.

(** C7, as stated, fails. A link whose path and text hold no pattern but
    whose query string does: its priority is 100, not the priority that the path and the text
    alone would give. *)
Lemma query_string_raises_priority :
  FormSpider.link_priority (Samples.link "/about" "ref=login" "About Us")
  ≠ path_and_text_priority (Samples.link "/about" "ref=login" "About Us").
Proof. vm_compute. intros [=]. Qed.

(** C7, amended. The priority of a link is 100 if one of the patterns
    occurs in the lower-cased text made of the link's URL without scheme
    and host, that is its path followed by its query string and fragment
    when it has them, a space, and the link's text; it is 0 otherwise; and
    every request yielded for a link carries that priority. *)
Theorem link_priority_spec {Form : Type} (link : Link) :
  let text :=
    lower (relative_url (link_url link) ++ " " ++ link_text link) in
  (FormSpider.link_priority link = 100%Z
   ↔ ∃ pattern, pattern ∈ FormSpider.priority_patterns ∧ occurs_in pattern text)
  ∧ (FormSpider.link_priority link = 0%Z
     ↔ ¬ ∃ pattern, pattern ∈ FormSpider.priority_patterns ∧ occurs_in pattern text)
  ∧ relative_url (link_url link)
    = Text.path (link_url link)
      ++ (if truthy (query (link_url link))
          then "?" ++ query (link_url link) else "")
      ++ (if truthy (fragment (link_url link))
          then "#" ++ fragment (link_url link) else "")
  ∧ (∀ (self self' : FormSpider.t) (response : Response Form) requests,
       FormSpider.parse self response = (self', Ok requests) →
       requests
       = map (λ link, {| FormSpider.request_url := link_url link;
                         FormSpider.priority := FormSpider.link_priority link |})
           (extract_links response))
  ∧ FormSpider.link_priority (Samples.link "/signup" "" "Sign Up Now") = 100%Z
  ∧ FormSpider.link_priority (Samples.link "/about" "" "About Us") = 0%Z.
Proof.
  intros text.
  assert (Hex : existsb (λ pattern, str_in pattern text) FormSpider.priority_patterns
                = true
                ↔ ∃ pattern, pattern ∈ FormSpider.priority_patterns
                             ∧ occurs_in pattern text).
  { rewrite existsb_exists. split.
    - intros (p & Hin & Hp). exists p. split; [by apply list_elem_of_In|].
      by apply str_in_spec.
    - intros (p & Hin & Hp). exists p. split; [by apply list_elem_of_In|].
      by apply str_in_spec. }
  assert (Hprio : FormSpider.link_priority link
                  = if existsb (λ pattern, str_in pattern text)
                         FormSpider.priority_patterns
                    then 100%Z else 0%Z) by reflexivity.
  split_and!.
  - rewrite Hprio, <- Hex. by destruct (existsb _ _).
  - rewrite Hprio, <- Hex. by destruct (existsb _ _).
  - apply relative_url_parts.
  - intros self self' response requests. unfold FormSpider.parse.
    destruct (_ && _); [done|]. by intros [= _ <-].
  - vm_compute. reflexivity.
  - vm_compute. reflexivity.
Qed.

(** *** The flags of the form spider *)

Section Flags.
Import FormSpider.
Context {Form : Type}.
Implicit Types (self : FormSpider.t) (response : Response Form).

Lemma see_form_cases url self form_type :
  (form_type = "login" ∧ found_login self = false
   ∧ see_form url self form_type = handle_login_form (set_found_login self) url)
  ∨ (form_type = "registration" ∧ found_registration self = false
     ∧ see_form url self form_type
       = handle_registration_form (set_found_registration self) url)
  ∨ ((form_type ≠ "login" ∨ found_login self = true)
     ∧ (form_type ≠ "registration" ∨ found_registration self = true)
     ∧ see_form url self form_type = self).
Proof.
  unfold see_form.
  destruct (String.eqb_spec form_type "login") as [->|Hlogin];
    destruct (found_login self) eqn:Hl; simpl.
  - right; right. split_and!; [by right | by left | done].
  - left. done.
  - destruct (String.eqb_spec form_type "registration") as [->|Hreg];
      destruct (found_registration self) eqn:Hr; simpl.
    + right; right. split_and!; [by left | by right | done].
    + right; left. done.
    + right; right. split_and!; [by left | by left | done].
    + right; right. split_and!; [by left | by left | done].
  - destruct (String.eqb_spec form_type "registration") as [->|Hreg];
      destruct (found_registration self) eqn:Hr; simpl.
    + right; right. split_and!; [by left | by right | done].
    + right; left. done.
    + right; right. split_and!; [by left | by left | done].
    + right; right. split_and!; [by left | by left | done].
Qed.

(** The effect of the loop over the forms of one page. *)
Lemma see_forms url (types : list string) self :
  let self' := fold_left (see_form url) types self in
  let login := existsb (λ t, String.eqb t "login") types in
  let registration := existsb (λ t, String.eqb t "registration") types in
  found_login self' = found_login self || login
  ∧ found_registration self' = found_registration self || registration
  ∧ login_url (credentials self')
    = (if negb (found_login self) && login then Some url
       else login_url (credentials self))
  ∧ registration_url (credentials self')
    = (if negb (found_registration self) && registration then Some url
       else registration_url (credentials self))
  ∧ length (committed self')
    = length (committed self)
      + Nat.b2n (negb (found_login self) && login)
      + Nat.b2n (negb (found_registration self) && registration).
Proof.
  revert self. induction types as [|t types IH]; intros self.
  - simpl. rewrite !orb_false_r, !andb_false_r. simpl. split_and!; [done..|lia].
  - simpl fold_left. simpl existsb. cbv zeta in IH |- *.
    destruct (IH (see_form url self t)) as (IH1 & IH2 & IH3 & IH4 & IH5).
    rewrite IH1, IH2, IH3, IH4, IH5. clear IH IH1 IH2 IH3 IH4 IH5.
    destruct (see_form_cases url self t)
      as [(-> & Hl & ->) | [(-> & Hr & ->) | (Hl & Hr & ->)]].
    + simpl. rewrite Hl. simpl. rewrite length_app. simpl.
      destruct (found_registration self),
        (existsb (λ t, String.eqb t "registration") types),
        (existsb (λ t, String.eqb t "login") types);
        simpl; split_and!; try done; lia.
    + simpl. rewrite Hr. simpl. rewrite length_app. simpl.
      destruct (found_login self),
        (existsb (λ t, String.eqb t "registration") types),
        (existsb (λ t, String.eqb t "login") types);
        simpl; split_and!; try done; lia.
    + assert (Hl' : found_login self || String.eqb t "login" = found_login self
                    ∧ negb (found_login self) && String.eqb t "login" = false).
      { destruct Hl as [Hl|Hl].
        - apply String.eqb_neq in Hl. rewrite Hl.
          by rewrite orb_false_r, andb_false_r.
        - by rewrite Hl. }
      assert (Hr' : found_registration self || String.eqb t "registration"
                    = found_registration self
                    ∧ negb (found_registration self)
                      && String.eqb t "registration" = false).
      { destruct Hr as [Hr|Hr].
        - apply String.eqb_neq in Hr. rewrite Hr.
          by rewrite orb_false_r, andb_false_r.
        - by rewrite Hr. }
      destruct Hl' as [Hl1 Hl2], Hr' as [Hr1 Hr2].
      destruct (found_login self), (found_registration self),
        (String.eqb t "login"), (String.eqb t "registration");
        simpl in *; try done.
Qed.

Lemma existsb_form_types (kind : string) (forms : list (Form * Meta)) :
  existsb (λ t, String.eqb t kind) (map (λ fm, form fm.2) forms)
  = existsb (λ fm, String.eqb (form fm.2) kind) forms.
Proof. induction forms as [|fm forms IH]; simpl; [done|]. by rewrite IH. Qed.

(** The effect of [parse] on the spider. *)
Lemma parse_spider self response :
  let self' := fst (parse self response) in
  found_login self' = found_login self || has_form "login" response
  ∧ found_registration self'
    = found_registration self || has_form "registration" response
  ∧ login_url (credentials self')
    = (if negb (found_login self) && has_form "login" response
       then Some (response_url response) else login_url (credentials self))
  ∧ registration_url (credentials self')
    = (if negb (found_registration self) && has_form "registration" response
       then Some (response_url response)
       else registration_url (credentials self))
  ∧ length (committed self')
    = length (committed self)
      + Nat.b2n (negb (found_login self) && has_form "login" response)
      + Nat.b2n (negb (found_registration self)
                 && has_form "registration" response).
Proof.
  unfold parse, has_form.
  destruct (truthy (response_text response)).
  - pose proof (see_forms (response_url response)
                  (map (λ fm, form fm.2) (extract_forms response)) self) as Hloop.
    cbv zeta in Hloop. rewrite !existsb_form_types in Hloop.
    cbv zeta. simpl andb.
    by destruct (found_registration (fold_left _ _ _)
                 && found_login (fold_left _ _ _)).
  - cbv zeta. simpl andb. rewrite !orb_false_r, !andb_false_r. simpl.
    destruct (found_registration self && found_login self);
      simpl; split_and!; try done; lia.
Qed.





End Flags.


(** Scenario A of the specification: a seed page with a login form and a
    registration form sets both flags, stores the page's URL twice and
    closes the spider without yielding a request. *)
Example scenario_A :
  FormSpider.parse
    (FormSpider.init {| FormSpider.login_url := None;
                        FormSpider.registration_url := None |})
    {| response_url := "http://x.com/";
       response_text := "<html></html>";
       base_url := "http://x.com/";
       extract_forms :=
         [ (Samples.login_form, Samples.login_meta);
           (Samples.form_B, {| form := "registration"; fields := [] |}) ];
       extract_links := [ Samples.link "/about" "" "About Us" ];
       cookiejar := None;
       get_cookiejar := None;
       meta_initial_cookies := [] |}
  = ({| FormSpider.credentials :=
          {| FormSpider.login_url := Some "http://x.com/";
             FormSpider.registration_url := Some "http://x.com/" |};
        FormSpider.found_login := true;
        FormSpider.found_registration := true;
        FormSpider.committed :=
          [ {| FormSpider.login_url := Some "http://x.com/";
               FormSpider.registration_url := None |};
            {| FormSpider.login_url := Some "http://x.com/";
               FormSpider.registration_url := Some "http://x.com/" |} ] |},
     Raise (CloseSpider "done")).
Proof. vm_compute. reflexivity. Qed.

(** *** The checkbox step and the assignments of the credentials *)

Section Checkboxes.
Context {Form : Type} `{FormElement Form}.
Variable urljoin : string -> option string -> string.
Implicit Types (f : Form) (meta : Meta).

Lemma check_checkboxes_app (l1 l2 : list (string * string)) f :
  check_checkboxes (l1 ++ l2) f
  = bind (check_checkboxes l1) (λ _, check_checkboxes l2) f.
Proof.
  revert f. induction l1 as [|[n t] l1 IH]; intros f; [reflexivity|].
  simpl. unfold bind.
  destruct ((if bool_decide (t ∈ CHECK_CHECKBOXES)
             then except_ValueError (assign n "on") else ret tt) f)
    as [[[]|e] f1]; [|done].
  by rewrite IH.
Qed.

(** One turn of the loop, on a field typed as a checkbox. *)
Lemma check_checkboxes_tick n t (rest : list (string * string)) f :
  t ∈ CHECK_CHECKBOXES →
  check_checkboxes ((n, t) :: rest) f
  = match fields_set f n "on" with
    | Ok f' => check_checkboxes rest f'
    | Raise ValueError => check_checkboxes rest f
    | Raise e => (Raise e, f)
    end.
Proof.
  intros Ht. simpl. rewrite bool_decide_eq_true_2 by done.
  unfold bind, except_ValueError, assign.
  by destruct (fields_set f n "on") as [f'|[]].
Qed.

(** One turn of the loop, on any other field. *)
Lemma check_checkboxes_skip n t (rest : list (string * string)) f :
  t ∉ CHECK_CHECKBOXES →
  check_checkboxes ((n, t) :: rest) f = check_checkboxes rest f.
Proof. intros Ht. simpl. by rewrite bool_decide_eq_false_2. Qed.

(** An error raised by the assignment of the username or of the
    password leaves [login_params]. *)
Lemma login_params_username_raises url username password meta
    username_field password_field f f1 e :
  scan_fields (fields meta) = (Some username_field, Some password_field) →
  check_checkboxes (fields meta) f = (Ok tt, f1) →
  fields_set f1 username_field username = Raise e →
  login_params urljoin url username password meta f = (Raise e, f1).
Proof.
  intros Hscan Hcheck Hset. unfold login_params. rewrite Hscan.
  unfold bind at 1. rewrite Hcheck.
  unfold bind at 1. unfold assign at 1. by rewrite Hset.
Qed.

Lemma login_params_password_raises url username password meta
    username_field password_field f f1 f2 e :
  scan_fields (fields meta) = (Some username_field, Some password_field) →
  check_checkboxes (fields meta) f = (Ok tt, f1) →
  fields_set f1 username_field username = Ok f2 →
  fields_set f2 password_field password = Raise e →
  login_params urljoin url username password meta f = (Raise e, f2).
Proof.
  intros Hscan Hcheck Hset1 Hset2. unfold login_params. rewrite Hscan.
  unfold bind at 1. rewrite Hcheck.
  unfold bind at 1. unfold assign at 1. rewrite Hset1.
  unfold bind at 1. unfold assign at 1. by rewrite Hset2.
Qed.

End Checkboxes.

(** C9, as stated, fails. Not every failure to accept "on" is ignored:
    the two checkboxes [remember] of this form are one group, which raises
    [KeyError] when it is assigned "on", and [login_params] ends with this
    error instead of going on to the submission. *)
Lemma checkbox_group_failure_is_raised :
  fields_set Samples.form_group "remember" "on" = Raise KeyError
  ∧ (login_params HtmlForm.urljoin (Some "http://x.com/") "alice" "s3cret"
       Samples.meta_group Samples.form_group).1
    = Raise KeyError.
Proof. vm_compute. split; reflexivity. Qed.

(** C9, amended. In the loop over the fields, a field typed as a
    remember-me checkbox is assigned "on": when the form accepts it the
    loop goes on with the updated form, when it raises [ValueError] the
    loop goes on with the form as it was, and when it raises any other
    error the loop ends with this error, which is then the outcome of
    [login_params]; fields of other types are passed over. Once the loop
    has ended, an error raised by the assignment of the username or by
    that of the password, a [ValueError] included, is the outcome of
    [login_params]. *)
Theorem checkbox_failure_is_ignored {Form : Type} `{FormElement Form}
    (urljoin : string -> option string -> string)
    (url : option string) (username password : string) (meta : Meta) :
  (∀ before name t after (f f1 : Form),
     fields meta = (before ++ (name, t) :: after)%list →
     t ∈ CHECK_CHECKBOXES →
     check_checkboxes before f = (Ok tt, f1) →
     check_checkboxes (fields meta) f
     = match fields_set f1 name "on" with
       | Ok f2 => check_checkboxes after f2
       | Raise ValueError => check_checkboxes after f1
       | Raise e => (Raise e, f1)
       end)
  ∧ (∀ before name t after (f f1 : Form),
       fields meta = (before ++ (name, t) :: after)%list →
       t ∉ CHECK_CHECKBOXES →
       check_checkboxes before f = (Ok tt, f1) →
       check_checkboxes (fields meta) f = check_checkboxes after f1)
  ∧ (∀ username_field password_field (f f1 : Form) e,
       scan_fields (fields meta) = (Some username_field, Some password_field) →
       check_checkboxes (fields meta) f = (Ok tt, f1) →
       fields_set f1 username_field username = Raise e →
       login_params urljoin url username password meta f = (Raise e, f1))
  ∧ (∀ username_field password_field (f f1 f2 : Form) e,
       scan_fields (fields meta) = (Some username_field, Some password_field) →
       check_checkboxes (fields meta) f = (Ok tt, f1) →
       fields_set f1 username_field username = Ok f2 →
       fields_set f2 password_field password = Raise e →
       login_params urljoin url username password meta f = (Raise e, f2))
  ∧ (∀ username_field password_field (f f1 : Form) e,
       scan_fields (fields meta) = (Some username_field, Some password_field) →
       check_checkboxes (fields meta) f = (Raise e, f1) →
       login_params urljoin url username password meta f = (Raise e, f1)).
Proof.
  split_and!.
  - intros before name t after f f1 -> Ht Hbefore.
    rewrite check_checkboxes_app. unfold bind. rewrite Hbefore.
    by apply check_checkboxes_tick.
  - intros before name t after f f1 -> Ht Hbefore.
    rewrite check_checkboxes_app. unfold bind. rewrite Hbefore.
    by apply check_checkboxes_skip.
  - intros u p f f1 e. apply login_params_username_raises.
  - intros u p f f1 f2 e. apply login_params_password_raises.
  - intros u p f f1 e Hscan Hcheck. unfold login_params. rewrite Hscan.
    unfold bind at 1. by rewrite Hcheck.
Qed.

(** The drop-down list [remember] of the sample form has no option "on":
    the [ValueError] is ignored, the checkbox [keep] after it is ticked and
    the parameters are returned. *)
Example ignored_checkbox_failure :
  fields_set Samples.login_form "remember" "on" = Raise ValueError
  ∧ login_params HtmlForm.urljoin (Some "http://x.com/") "alice" "s3cret"
      Samples.login_meta Samples.login_form
    = (Ok (Some Samples.submitted_params), Samples.submitted_form).
Proof. vm_compute. split; reflexivity. Qed.

(** A user field that is a drop-down list without the username: the
    [ValueError] of its assignment is raised by [login_params]. *)
Example username_failure_is_raised :
  login_params HtmlForm.urljoin (Some "http://x.com/") "alice" "s3cret"
    Samples.meta_choice Samples.form_choice
  = (Raise ValueError, Samples.form_choice).
Proof. vm_compute. reflexivity. Qed.

(** *** Calling [login_params] again *)

(** Opens an assignment, guarded or not, down to the match on
    [fields_set]. *)
Ltac open_assignment :=
  unfold run_assignment, except_ValueError, assign.

Section Assignments.
Context {Form : Type} `{FormLaws Form}.
Implicit Types (f : Form) (a b : Assignment) (l : list Assignment).

(** An assignment either leaves the form as it is or is a successful
    assignment to its target. *)
Lemma run_assignment_form a f r f1 :
  run_assignment a f = (r, f1) →
  f1 = f ∨ fields_set f (target a) (new_value a) = Ok f1.
Proof.
  open_assignment.
  destruct (guarded a), (fields_set f (target a) (new_value a)) as [g|[]];
    intros [= <- <-]; auto.
Qed.

Lemma run_assignment_raise a f e f1 :
  run_assignment a f = (Raise e, f1) → f1 = f.
Proof.
  open_assignment.
  by destruct (guarded a), (fields_set f (target a) (new_value a)) as [g|[]];
    intros [= <- <-].
Qed.

(** Once made, an assignment changes nothing if made again. *)
Lemma run_assignment_after a f f1 :
  run_assignment a f = (Ok tt, f1) → run_assignment a f1 = (Ok tt, f1).
Proof.
  open_assignment.
  destruct (guarded a),
    (fields_set f (target a) (new_value a)) as [g|[]] eqn:Hset;
    intros [= <-]; by rewrite ?(fields_set_idem _ _ _ _ Hset), ?Hset.
Qed.

(** An assignment that changes nothing still changes nothing after an
    assignment to another field. *)
Lemma run_assignment_frame a b f r f1 :
  target a ≠ target b →
  run_assignment a f = (Ok tt, f) →
  run_assignment b f = (r, f1) →
  run_assignment a f1 = (Ok tt, f1).
Proof.
  intros Hne Ha Hb.
  apply run_assignment_form in Hb as [->|Hb]; [done|].
  revert Ha. open_assignment.
  destruct (guarded a),
    (fields_set f (target a) (new_value a)) as [g|[]] eqn:Hset;
    intros Ha; simplify_eq;
    by rewrite
      ?(fields_set_frame_ok _ _ _ _ _ _ Hne Hb Hset),
      ?(fields_set_frame_raise _ _ _ _ _ _ _ Hne Hb Hset).
Qed.

Lemma run_assignments_frame a l f r f1 :
  target a ∉ target <$> l →
  run_assignment a f = (Ok tt, f) →
  run_assignments l f = (r, f1) →
  run_assignment a f1 = (Ok tt, f1).
Proof.
  revert f. induction l as [|b l IH]; intros f Hnotin Ha.
  - by intros [= _ <-].
  - rewrite fmap_cons, not_elem_of_cons in Hnotin. destruct Hnotin as [Hne Hnotin].
    simpl. unfold bind.
    destruct (run_assignment b f) as [[[]|e] fb] eqn:Hb.
    + apply IH; [done|]. by apply (run_assignment_frame a b f (Ok tt)).
    + intros [= <- <-]. by apply (run_assignment_frame a b f (Raise e)).
Qed.

(** Running the same assignments again, on distinct fields, gives the
    same outcome and changes nothing. *)
Lemma run_assignments_again l f r f1 :
  NoDup (target <$> l) →
  run_assignments l f = (r, f1) →
  run_assignments l f1 = (r, f1).
Proof.
  revert f. induction l as [|a l IH]; intros f Hnodup.
  - by intros [= <- <-].
  - rewrite fmap_cons, NoDup_cons in Hnodup. destruct Hnodup as [Hnotin Hnodup].
    simpl. unfold bind.
    destruct (run_assignment a f) as [[[]|e] fa] eqn:Ha.
    + intros Hrest.
      apply run_assignment_after in Ha.
      rewrite (run_assignments_frame a l fa r f1 Hnotin Ha Hrest).
      by apply (IH fa).
    + intros [= <- <-]. pose proof (run_assignment_raise _ _ _ _ Ha) as ->.
      by rewrite Ha.
Qed.

End Assignments.

Section Again.
Context {Form : Type} `{FormLaws Form}.
Variable urljoin : string -> option string -> string.
Implicit Types (f : Form) (meta : Meta).

Lemma run_assignments_app (l1 l2 : list Assignment) f :
  run_assignments (l1 ++ l2) f
  = bind (run_assignments l1) (λ _, run_assignments l2) f.
Proof.
  revert f. induction l1 as [|a l1 IH]; intros f; [reflexivity|].
  simpl. unfold bind.
  destruct (run_assignment a f) as [[[]|e] f1]; [|done].
  by rewrite IH.
Qed.

Lemma check_checkboxes_run (fields_ : list (string * string)) f :
  check_checkboxes fields_ f
  = run_assignments (checkbox_assignments fields_) f.
Proof.
  revert f. induction fields_ as [|[n t] rest IH]; intros f; [reflexivity|].
  unfold checkbox_assignments. simpl check_checkboxes. case_bool_decide as Ht.
  - rewrite filter_cons_True by done. rewrite fmap_cons. simpl.
    unfold bind, run_assignment. simpl.
    destruct (except_ValueError (assign n "on") f) as [[[]|e] f1]; [|done].
    apply IH.
  - rewrite filter_cons_False by done. unfold bind, ret. apply IH.
Qed.

(** [login_params] makes its assignments and then only reads the form. *)
Lemma login_params_run url username password meta username_field password_field :
  scan_fields (fields meta) = (Some username_field, Some password_field) →
  ∃ tail : St (option Params),
    (∀ g, snd (tail g) = g)
    ∧ ∀ f, login_params urljoin url username password meta f
           = bind (run_assignments
                     (assignments (fields meta) username_field username
                        password_field password))
               (λ _, tail) f.
Proof.
  intros Hscan.
  exists (λ g,
    match append_submits (fields meta)
            (map (λ kv, (kv.1, Some kv.2)) (form_values g)) g with
    | (Ok submit_values, g') =>
        (Ok (Some {|
           params_url :=
             match url with
             | None => action g'
             | Some base => Some (urljoin base (action g'))
             end;
           params_method := method g';
           params_headers :=
             if String.eqb (method g') "POST" then DEFAULT_POST_HEADERS else ∅;
           params_body := urlencode submit_values |}), g')
    | (Raise e, g') => (Raise e, g')
    end).
  split.
  - intros g.
    pose proof (append_submits_reads (fields meta)
                  (map (λ kv, (kv.1, Some kv.2)) (form_values g)) g) as Hsame.
    by destruct (append_submits _ _ g) as [[sv|e] g'].
  - intros f. unfold login_params, assignments. rewrite Hscan.
    unfold bind. rewrite run_assignments_app, check_checkboxes_run.
    unfold bind.
    destruct (run_assignments (checkbox_assignments (fields meta)) f)
      as [[[]|e] f1]; [|done].
    simpl. unfold bind, run_assignment, assign, read, ret. simpl.
    destruct (fields_set f1 username_field username) as [f2|e]; [|done].
    destruct (fields_set f2 password_field password) as [f3|e]; [|done].
    by destruct (append_submits _ _ f3) as [[sv|e] g'].
Qed.

Lemma fields_type_unique (fields_ : list (string * string)) n t1 t2 :
  NoDup fields_.*1 → (n, t1) ∈ fields_ → (n, t2) ∈ fields_ → t1 = t2.
Proof.
  induction fields_ as [|[m t] rest IH]; intros Hnodup Hin1 Hin2.
  - by apply elem_of_nil in Hin1.
  - rewrite fmap_cons, NoDup_cons in Hnodup. destruct Hnodup as [Hnotin Hnodup].
    assert (Hfresh : ∀ t', (m, t') ∈ rest → False).
    { intros t' Hin. apply Hnotin. apply list_elem_of_fmap. by exists (m, t'). }
    apply elem_of_cons in Hin1 as [Heq1|Hin1];
      apply elem_of_cons in Hin2 as [Heq2|Hin2]; simplify_eq.
    + done.
    + by destruct (Hfresh t2).
    + by destruct (Hfresh t1).
    + by apply IH.
Qed.

Lemma last_of_type_elem (types : gset string)
    (fields_ : list (string * string)) n :
  last_of_type types fields_ = Some n → ∃ t, (n, t) ∈ fields_ ∧ t ∈ types.
Proof.
  intros (before & t & after & -> & Ht & _)%last_of_type_Some.
  exists t. split; [|done]. apply elem_of_app. right. by left.
Qed.

Lemma checkbox_targets (fields_ : list (string * string)) n :
  n ∈ target <$> checkbox_assignments fields_ →
  (n, "remember me checkbox") ∈ fields_.
Proof.
  unfold checkbox_assignments. rewrite <- list_fmap_compose.
  intros ([m t] & -> & [Ht Hin]%list_elem_of_filter)%list_elem_of_fmap.
  simpl in *. unfold CHECK_CHECKBOXES in Ht. apply elem_of_singleton in Ht.
  by subst.
Qed.

Lemma assignments_NoDup (fields_ : list (string * string))
    username_field username password_field password :
  NoDup fields_.*1 →
  scan_fields fields_ = (Some username_field, Some password_field) →
  NoDup (target <$> assignments fields_ username_field username
                      password_field password).
Proof.
  intros Hnodup Hscan. rewrite scan_fields_last in Hscan.
  injection Hscan as Hu Hp.
  apply last_of_type_elem in Hu as (tu & Hu & Htu).
  apply last_of_type_elem in Hp as (tp & Hp & Htp).
  unfold assignments. rewrite fmap_app. apply NoDup_app. split_and!.
  - unfold checkbox_assignments. rewrite <- list_fmap_compose.
    change (NoDup (filter (λ field, field.2 ∈ CHECK_CHECKBOXES) fields_).*1).
    eapply sublist_NoDup; [exact Hnodup|].
    apply (fmap_sublist fst), sublist_filter.
  - intros n Hn%checkbox_targets Hin. simpl in Hin.
    apply elem_of_cons in Hin as [->|Hin].
    + pose proof (fields_type_unique _ _ _ _ Hnodup Hn Hu) as <-.
      revert Htu. unfold USERNAME_FIELD_TYPES.
      rewrite !elem_of_union, !elem_of_singleton.
      intros [[?|?]|?]; discriminate.
    + apply list_elem_of_singleton in Hin as ->.
      pose proof (fields_type_unique _ _ _ _ Hnodup Hn Hp) as <-.
      revert Htp. unfold PASSWORD_FIELD_TYPES. rewrite elem_of_singleton.
      discriminate.
  - simpl. apply NoDup_cons. split; [|apply NoDup_singleton].
    intros ->%list_elem_of_singleton.
    pose proof (fields_type_unique _ _ _ _ Hnodup Hu Hp) as ->.
    by apply username_type_not_password in Htu.
Qed.

End Again.

(** C3, as stated, fails. The call fills in the form it is given: the
    sample form is not the same after it. *)
Lemma login_params_updates_the_form :
  snd (login_params HtmlForm.urljoin (Some "http://x.com/") "alice" "s3cret"
         Samples.login_meta Samples.login_form)
  ≠ Samples.login_form.
Proof. vm_compute. intros [=]. Qed.

(** C3, amended. [login_params] reads the classification and writes to
    the form only. Whatever a call returns or raises, on a form whose
    assignments are repeatable and independent from one field to another
    and a classification that names each field once, the same call on the
    form as the first one left it has the same outcome, byte for byte, and
    leaves the form unchanged. *)
Theorem login_params_again {Form : Type} `{FormLaws Form}
    (urljoin : string -> option string -> string)
    (url : option string) (username password : string) (meta : Meta)
    (f f' : Form) (r : result (option Params)) :
  NoDup (fields meta).*1 →
  login_params urljoin url username password meta f = (r, f') →
  login_params urljoin url username password meta f' = (r, f').
Proof.
  intros Hnodup Hcall.
  destruct (scan_fields (fields meta)) as [[u|] [p|]] eqn:Hscan;
    try (revert Hcall; unfold login_params; rewrite Hscan;
         by intros [= <- <-]).
  destruct (login_params_run urljoin url username password meta u p Hscan)
    as (tail & Hreads & Hrun).
  rewrite Hrun in Hcall |- *. revert Hcall. unfold bind.
  destruct (run_assignments _ f) as [[[]|e] f1] eqn:Hassign.
  - intros Htail. pose proof (Hreads f1) as Hsame.
    rewrite Htail in Hsame. simpl in Hsame. subst f'.
    rewrite (run_assignments_again _ _ _ _
               (assignments_NoDup _ _ _ _ _ Hnodup Hscan) Hassign).
    done.
  - intros [= <- <-].
    by rewrite (run_assignments_again _ _ _ _
                  (assignments_NoDup _ _ _ _ _ Hnodup Hscan) Hassign).
Qed.

(** *** The concrete form satisfies the laws *)

Section HtmlFormLaws.
Import HtmlForm.
Implicit Types (c : Control) (l : list (string * Control)).

Lemma tick_untick value (boxes boxes' : list (option string * bool)) :
  tick value boxes = Some boxes' → untick boxes' = untick boxes.
Proof.
  revert boxes'. induction boxes as [|[box_value checked] rest IH];
    intros boxes'; simpl; [done|].
  case_bool_decide; [by intros [= <-]|].
  destruct (tick value rest) as [rest'|]; [|done].
  intros [= <-].
  change ((box_value, false) :: untick rest'
          = (box_value, false) :: untick rest).
  f_equal. by apply IH.
Qed.

Lemma untick_untick (boxes : list (option string * bool)) :
  untick (untick boxes) = untick boxes.
Proof.
  induction boxes as [|[box_value checked] rest IH]; [done|].
  change ((box_value, false) :: untick (untick rest)
          = (box_value, false) :: untick rest).
  by rewrite IH.
Qed.

Lemma tick_all_untick (values_ : list string)
    (boxes boxes' : list (option string * bool)) :
  tick_all values_ boxes = Some boxes' → untick boxes' = untick boxes.
Proof.
  revert boxes. induction values_ as [|value rest IH]; intros boxes; simpl.
  - by intros [= <-].
  - destruct (tick value boxes) as [boxes1|] eqn:Htick; [|done].
    intros Hrest. rewrite (IH _ Hrest). by apply (tick_untick value).
Qed.

Lemma set_value_idem c c' v :
  set_value c v = Ok c' → set_value c' v = Ok c'.
Proof.
  destruct c as [value|checked value|boxes|options selected|value]; simpl.
  - by intros [= <-].
  - destruct (truthy v) eqn:Hv; intros [= <-]; simpl; by rewrite Hv.
  - destruct (tick_all (letters v) (untick boxes)) as [boxes'|] eqn:Hticks;
      [|done].
    intros [= <-]. simpl.
    by rewrite (tick_all_untick _ _ _ Hticks), untick_untick, Hticks.
  - case_bool_decide as Hin; [|done]. intros [= <-]. simpl.
    by rewrite bool_decide_eq_true_2.
  - by intros [= <-].
Qed.

Lemma set_input_idem l l' name v :
  set_input l name v = Ok l' → set_input l' name v = Ok l'.
Proof.
  revert l'. induction l as [|[n c] rest IH]; intros l'; simpl; [done|].
  destruct (String.eqb n name) eqn:Hn.
  - destruct (set_value c v) as [c'|e] eqn:Hc; [|done].
    intros [= <-]. simpl. by rewrite Hn, (set_value_idem _ _ _ Hc).
  - destruct (set_input rest name v) as [rest'|e] eqn:Hrest; [|done].
    intros [= <-]. simpl. by rewrite Hn, (IH rest').
Qed.

Lemma set_input_frame l l' name v other w (r : result (list (string * Control))) :
  name ≠ other →
  set_input l other w = Ok l' →
  set_input l name v = match r with Ok _ => Ok l | Raise e => Raise e end →
  set_input l' name v = match r with Ok _ => Ok l' | Raise e => Raise e end.
Proof.
  intros Hne. revert l'. induction l as [|[n c] rest IH]; intros l'; simpl; [done|].
  destruct (String.eqb_spec n other) as [->|Hother].
  - destruct (set_value c w) as [c'|e] eqn:Hc; [|done].
    intros [= <-]. simpl.
    rewrite (proj2 (String.eqb_neq other name)) by done.
    destruct (set_input rest name v) as [rest'|e]; destruct r; intros Hr; by simplify_eq.
  - destruct (set_input rest other w) as [rest'|e] eqn:Hrest; [|done].
    intros [= <-]. simpl. destruct (String.eqb n name).
    + destruct (set_value c v) as [c'|e]; destruct r; intros Hr; by simplify_eq.
    + specialize (IH rest' eq_refl).
      destruct (set_input rest name v) as [rest''|e]; destruct r;
        intros Hr; simplify_eq; by rewrite IH.
Qed.

#[global] Instance form_laws : FormLaws HtmlForm.t.
Proof.
  split.
  - intros [a m l] f' name v. simpl. unfold set_field. simpl.
    destruct (set_input l name v) as [l'|e] eqn:Hset; [|done].
    intros [= <-]. simpl. by rewrite (set_input_idem _ _ _ _ Hset).
  - intros [a m l] f' name v other w Hne. simpl. unfold set_field. simpl.
    destruct (set_input l other w) as [l'|e] eqn:Hother; [|done].
    intros [= <-]. simpl.
    destruct (set_input l name v) as [l1|e] eqn:Hset; [|done].
    intros [= ->].
    by rewrite (set_input_frame l l' name v other w (Ok []) Hne Hother Hset).
  - intros [a m l] f' name v other w e Hne. simpl. unfold set_field. simpl.
    destruct (set_input l other w) as [l'|e'] eqn:Hother; [|done].
    intros [= <-]. simpl.
    destruct (set_input l name v) as [l1|e'] eqn:Hset; [done|].
    intros [= ->].
    by rewrite (set_input_frame l l' name v other w (Raise e) Hne Hother Hset).
Qed.

End HtmlFormLaws.

(** C3, amended, on the sample form. *)
Lemma login_params_again_sample :
  NoDup (fields Samples.login_meta).*1
  ∧ login_params HtmlForm.urljoin (Some "http://x.com/") "alice" "s3cret"
      Samples.login_meta Samples.login_form
    = (Ok (Some Samples.submitted_params), Samples.submitted_form)
  ∧ login_params HtmlForm.urljoin (Some "http://x.com/") "alice" "s3cret"
      Samples.login_meta Samples.submitted_form
    = (Ok (Some Samples.submitted_params), Samples.submitted_form).
Proof.
  assert (Hnodup : NoDup (fields Samples.login_meta).*1)
    by compute_done.
  assert (Hcall :
    login_params HtmlForm.urljoin (Some "http://x.com/") "alice" "s3cret"
      Samples.login_meta Samples.login_form
    = (Ok (Some Samples.submitted_params), Samples.submitted_form))
    by (vm_compute; reflexivity).
  split_and!; [exact Hnodup | exact Hcall |].
  exact (login_params_again HtmlForm.urljoin (Some "http://x.com/")
           "alice" "s3cret" Samples.login_meta Samples.login_form
           Samples.submitted_form (Ok (Some Samples.submitted_params))
           Hnodup Hcall).
Defined.

(** ** Further properties *)

(** *** Finding the login form *)

(** X1. [get_login_form] returns the first form that formasaurus typed
    as a login form: the forms before it are of other types; and it
    returns [None] exactly when no form of the page is a login form. *)
Theorem get_login_form_first {Form : Type} (forms : list (Form * Meta)) :
  (∀ form_ meta,
     LoginSpider.get_login_form forms = Some (form_, meta)
     ↔ ∃ before after,
         forms = (before ++ (form_, meta) :: after)%list
         ∧ form meta = "login"
         ∧ ∀ fm, fm ∈ before → form fm.2 ≠ "login")
  ∧ (LoginSpider.get_login_form forms = None
     ↔ ∀ fm, fm ∈ forms → form fm.2 ≠ "login").
Proof.
  induction forms as [|[f m] rest [IHsome IHnone]]; simpl.
  - split.
    + intros form_ meta. split; [done|].
      intros (before & after & Heq & _). by destruct before.
    + split; [|done]. intros _ fm Hin. by apply elem_of_nil in Hin.
  - destruct (String.eqb_spec (form m) "login") as [Hlogin|Hother]; split.
    + intros form_ meta. split.
      * intros [= <- <-]. exists [], rest. split_and!; [done..|].
        intros fm Hin. by apply elem_of_nil in Hin.
      * intros ([|b before] & after & Heq & Hmeta & Hbefore);
          simpl in Heq; simplify_eq; [done|].
        destruct (Hbefore (f, m)); [by left | done].
    + split; [done|]. intros Hall. destruct (Hall (f, m)); [by left | done].
    + intros form_ meta. rewrite IHsome. split.
      * intros (before & after & -> & Hmeta & Hbefore).
        exists ((f, m) :: before), after. split_and!; [done..|].
        intros fm [->|Hin]%elem_of_cons; [done | by apply Hbefore].
      * intros ([|b before] & after & Heq & Hmeta & Hbefore);
          simpl in Heq; simplify_eq.
        exists before, after. split_and!; [done..|].
        intros fm Hin. apply Hbefore. by right.
    + rewrite IHnone. split.
      * intros Hall fm [->|Hin]%elem_of_cons; [done | by apply Hall].
      * intros Hall fm Hin. apply Hall. by right.
Qed.

(** *** A whole login attempt *)

(** X3. A whole login attempt: when [parse] has returned the request for
    a page that shows the cookies [before], and the response to it carries
    the initial cookies of that request and shows the cookies [final],
    [parse_login] reports success, with [final] and the address of the
    response, exactly when a cookie of [final] agrees with no cookie of
    [before] on name, value, domain, path and port; a response that shows
    the very cookies of the page is no success, and gives [badauth] when
    Splash is not used. *)
Theorem login_attempt_verdict {Form : Type} `{FormElement Form}
    (urljoin : string -> option string -> string)
    (env : LoginSpider.Env Form)
    (self : LoginSpider.t) (response response' : Response Form)
    (request : LoginSpider.Request) (before final : list Cookie) :
  LoginSpider.parse urljoin env self response = Ok (inr request) →
  meta_initial_cookies response' = LoginSpider.initial_cookies request →
  shows response before →
  shows response' final →
  (LoginSpider.parse_login env self response'
   = Ok ([], LoginSpider.LoggedIn final (response_url response'))
   ↔ ∃ c, c ∈ final ∧ is_new before c)
  ∧ (succeeded (LoginSpider.parse_login env self response') = true
     ↔ ∃ c, c ∈ final ∧ is_new before c)
  ∧ (final = before →
     succeeded (LoginSpider.parse_login env self response') = false
     ∧ (LoginSpider.using_splash self = false →
        LoginSpider.parse_login env self response'
        = Ok ([], LoginSpider.Failed "badauth"))).
Proof.
  intros Hparse Hmeta Hbefore Hfinal.
  apply parse_initial_cookies in Hparse.
  rewrite or_empty_cookie_dicts, (shows_or_empty _ _ Hbefore) in Hparse.
  rewrite Hparse in Hmeta.
  pose proof (shows_or_empty _ _ Hfinal) as Hshown.
  assert (Hverdict :
    succeeded (LoginSpider.parse_login env self response') = true
    ↔ ∃ c, c ∈ final ∧ is_new before c).
  { rewrite succeeded_spec, Hmeta, Hshown.
    rewrite negb_true_iff, bool_decide_eq_false.
    apply tuple_set_not_subseteq. }
  split_and!.
  - rewrite <- Hverdict. split; [by intros ->|].
    rewrite succeeded_spec, negb_true_iff, bool_decide_eq_false.
    intros Hnot. rewrite <- Hshown. by apply parse_login_not_subset.
  - exact Hverdict.
  - intros ->.
    assert (Hsub : tuple_set (or_empty (_response_cookies response'))
                     ⊆ tuple_set (meta_initial_cookies response'))
      by (by rewrite Hmeta, Hshown).
    split.
    + rewrite succeeded_spec. by rewrite bool_decide_eq_true_2.
    + intros Hsplash. rewrite (parse_login_subset _ _ _ Hsub).
      by rewrite Hsplash.
Qed.

(** X3 on the sample page, shown with the cookie [sid] and answered with
    the same cookie. *)
Lemma login_attempt_sample :
  LoginSpider.parse_login Samples.env Samples.spider
    (Samples.page [] (Some [Samples.sid]) [Samples.sid])
  = Ok ([], LoginSpider.Failed "badauth").
Proof.
  refine (proj2 (proj2 (proj2
    (login_attempt_verdict HtmlForm.urljoin Samples.env Samples.spider
       (Samples.page [(Samples.login_form, Samples.login_meta)]
          (Some [Samples.sid]) [])
       (Samples.page [] (Some [Samples.sid]) [Samples.sid])
       {| LoginSpider.request_url := Some "http://x.com/login";
          LoginSpider.request_method := "POST";
          LoginSpider.request_headers := DEFAULT_POST_HEADERS;
          LoginSpider.request_body :=
            "user=alice&pass=s3cret&remember=yes&keep=on&go=Log+in";
          LoginSpider.initial_cookies := [Samples.sid];
          LoginSpider.dont_filter := true |}
       [Samples.sid] [Samples.sid] _ _ _ _)) _) _).
  - vm_compute. reflexivity.
  - reflexivity.
  - reflexivity.
  - reflexivity.
  - reflexivity.
  - reflexivity.
Defined.

(** *** The verdict as a comparison of sets *)

(** X4. The verdict does not depend on the order of the cookies nor on
    how often one occurs: two responses whose initial cookies are the same
    up to order and repetition, and whose final cookies are, get the same
    verdict. *)
Theorem verdict_ignores_order {Form : Type} (env : LoginSpider.Env Form)
    (self : LoginSpider.t) (r r' : Response Form) :
  (∀ c, c ∈ meta_initial_cookies r ↔ c ∈ meta_initial_cookies r') →
  (∀ c, c ∈ or_empty (_response_cookies r)
        ↔ c ∈ or_empty (_response_cookies r')) →
  succeeded (LoginSpider.parse_login env self r)
  = succeeded (LoginSpider.parse_login env self r').
Proof.
  intros Hinitial Hfinal. rewrite !succeeded_spec.
  by rewrite (tuple_set_same _ _ Hinitial), (tuple_set_same _ _ Hfinal).
Qed.

(** X5. Success is kept when cookies are taken away from the initial
    ones or added to the final ones. *)
Theorem verdict_monotone {Form : Type} (env : LoginSpider.Env Form)
    (self : LoginSpider.t) (r r' : Response Form) :
  (∀ c, c ∈ meta_initial_cookies r' → c ∈ meta_initial_cookies r) →
  (∀ c, c ∈ or_empty (_response_cookies r)
        → c ∈ or_empty (_response_cookies r')) →
  succeeded (LoginSpider.parse_login env self r) = true →
  succeeded (LoginSpider.parse_login env self r') = true.
Proof.
  intros Hinitial Hfinal. rewrite !succeeded_spec.
  rewrite !negb_true_iff, !bool_decide_eq_false.
  intros Hnot Hsub. apply Hnot.
  etrans; [by apply tuple_set_mono|]. etrans; [exact Hsub|].
  by apply tuple_set_mono.
Qed.

(** *** The form spider over a whole crawl *)

Section Crawl.
Import FormSpider.
Context {Form : Type}.
Implicit Types (self : FormSpider.t) (response : Response Form).


Lemma after_crawl_found (kind : string) (flag : FormSpider.t → bool)
    (responses : list (Response Form)) self :
  (∀ s (r : Response Form),
     flag (fst (parse s r)) = flag s || has_form kind r) →
  flag (after_crawl self responses)
  = flag self || existsb (has_form kind) responses.
Proof.
  intros Hstep. revert self.
  induction responses as [|r rs IH]; intros self; simpl.
  - by rewrite orb_false_r.
  - change (after_crawl self (r :: rs)) with (after_crawl (fst (parse self r)) rs).
    by rewrite IH, Hstep, orb_assoc.
Qed.

Lemma after_crawl_login_url (responses : list (Response Form)) self :
  login_url (credentials (after_crawl self responses))
  = if found_login self then login_url (credentials self)
    else match find (has_form "login") responses with
         | Some r => Some (response_url r)
         | None => login_url (credentials self)
         end.
Proof.
  revert self. induction responses as [|r rs IH]; intros self.
  - simpl. by destruct (found_login self).
  - change (after_crawl self (r :: rs)) with (after_crawl (fst (parse self r)) rs).
    rewrite IH. destruct (parse_spider self r) as (H1 & _ & H3 & _).
    cbv zeta in H1, H3. rewrite H1, H3. simpl find.
    by destruct (found_login self), (has_form "login" r).
Qed.

Lemma after_crawl_registration_url (responses : list (Response Form)) self :
  registration_url (credentials (after_crawl self responses))
  = if found_registration self then registration_url (credentials self)
    else match find (has_form "registration") responses with
         | Some r => Some (response_url r)
         | None => registration_url (credentials self)
         end.
Proof.
  revert self. induction responses as [|r rs IH]; intros self.
  - simpl. by destruct (found_registration self).
  - change (after_crawl self (r :: rs)) with (after_crawl (fst (parse self r)) rs).
    rewrite IH. destruct (parse_spider self r) as (_ & H2 & _ & H4 & _).
    cbv zeta in H2, H4. rewrite H2, H4. simpl find.
    by destruct (found_registration self), (has_form "registration" r).
Qed.

(** The rows committed so far end with the credentials the spider holds. *)
Lemma see_form_in_sync (first : Credentials) url self form_type :
  default first (last (committed self)) = credentials self →
  default first (last (committed (see_form url self form_type)))
  = credentials (see_form url self form_type).
Proof.
  intros Hsync.
  destruct (see_form_cases url self form_type)
    as [(_ & _ & ->) | [(_ & _ & ->) | (_ & _ & ->)]]; [| |done];
    simpl; by rewrite last_snoc.
Qed.

Lemma see_forms_in_sync (first : Credentials) url (types : list string) self :
  default first (last (committed self)) = credentials self →
  default first (last (committed (fold_left (see_form url) types self)))
  = credentials (fold_left (see_form url) types self).
Proof.
  revert self. induction types as [|t types IH]; intros self Hsync; [done|].
  simpl. apply IH. by apply see_form_in_sync.
Qed.

Lemma parse_in_sync (first : Credentials) self response :
  default first (last (committed self)) = credentials self →
  default first (last (committed (fst (parse self response))))
  = credentials (fst (parse self response)).
Proof.
  intros Hsync. unfold parse.
  set (s1 := if truthy (response_text response) then _ else self).
  assert (Hs1 : default first (last (committed s1)) = credentials s1).
  { unfold s1. destruct (truthy (response_text response)); [|done].
    by apply see_forms_in_sync. }
  by destruct (found_registration s1 && found_login s1).
Qed.

End Crawl.


(** X7. After a crawl from a new spider, a flag is set exactly when one of
    the pages parsed had a form of its type, and the URL stored for that
    type is the URL of the first such page in the order of parsing; with
    no such page the credentials keep the URL they came with. *)
Theorem crawl_keeps_first_urls {Form : Type}
    (first : FormSpider.Credentials) (responses : list (Response Form)) :
  let last := after_crawl (FormSpider.init first) responses in
  FormSpider.found_login last = existsb (has_form "login") responses
  ∧ FormSpider.found_registration last
    = existsb (has_form "registration") responses
  ∧ FormSpider.login_url (FormSpider.credentials last)
    = match find (has_form "login") responses with
      | Some r => Some (response_url r)
      | None => FormSpider.login_url first
      end
  ∧ FormSpider.registration_url (FormSpider.credentials last)
    = match find (has_form "registration") responses with
      | Some r => Some (response_url r)
      | None => FormSpider.registration_url first
      end.
Proof.
  intros last. unfold last. split_and!.
  - rewrite (after_crawl_found "login"); [done|].
    intros s r. by destruct (parse_spider s r) as (H1 & _).
  - rewrite (after_crawl_found "registration"); [done|].
    intros s r. by destruct (parse_spider s r) as (_ & H2 & _).
  - by rewrite after_crawl_login_url.
  - by rewrite after_crawl_registration_url.
Qed.

(** X8. At every point of a crawl from a new spider, the last row
    committed to the database is the credentials the spider holds, and
    when nothing has been committed the spider still holds the credentials
    it came with. *)
Theorem committed_in_sync {Form : Type}
    (first : FormSpider.Credentials) (responses : list (Response Form))
    (spider : FormSpider.t) :
  spider ∈ FormSpider.crawl (FormSpider.init first) responses →
  default first (last (FormSpider.committed spider))
  = FormSpider.credentials spider.
Proof.
  assert (Hgen : ∀ self,
            default first (last (FormSpider.committed self))
            = FormSpider.credentials self →
            spider ∈ FormSpider.crawl self responses →
            default first (last (FormSpider.committed spider))
            = FormSpider.credentials spider).
  { induction responses as [|r rs IH]; intros self Hself Hin.
    - apply list_elem_of_singleton in Hin. by subst.
    - simpl in Hin. apply elem_of_cons in Hin as [->|Hin]; [done|].
      apply (IH (fst (FormSpider.parse self r))); [|done].
      by apply parse_in_sync. }
  by apply Hgen.
Qed.

(** *** Keywords in links *)

Lemma lower_app (a b : string) : lower (a ++ b) = lower a ++ lower b.
Proof.
  induction a as [|c a IH]; [done|].
  change (String (lower_char c) (lower (a ++ b))
          = String (lower_char c) (lower a ++ lower b)).
  by rewrite IH.
Qed.

Lemma lower_char_twice (c : ascii) : lower_char (lower_char c) = lower_char c.
Proof. destruct c as [[] [] [] [] [] [] [] []]; reflexivity. Qed.

Lemma lower_twice (s : string) : lower (lower s) = lower s.
Proof.
  induction s as [|c s IH]; [done|]. simpl. by rewrite lower_char_twice, IH.
Qed.

Lemma occurs_in_app_l (p a b : string) : occurs_in p a → occurs_in p (a ++ b).
Proof.
  intros (x & y & ->). exists x, (y ++ b). by rewrite !append_assoc.
Qed.

Lemma occurs_in_app_r (p a b : string) : occurs_in p b → occurs_in p (a ++ b).
Proof.
  intros (x & y & ->). exists (a ++ x), y. by rewrite !append_assoc.
Qed.

Lemma link_priority_100 (link : Link) (pattern : string) :
  pattern ∈ FormSpider.priority_patterns →
  occurs_in pattern
    (lower (relative_url (link_url link) ++ " " ++ link_text link)) →
  FormSpider.link_priority link = 100%Z.
Proof.
  intros Hin Hoccurs. unfold FormSpider.link_priority.
  assert (Hex : existsb
            (λ pattern, str_in pattern
               (lower (join " " [relative_url (link_url link); link_text link])))
            FormSpider.priority_patterns = true).
  { apply existsb_exists. exists pattern. split; [by apply list_elem_of_In|].
    by apply str_in_spec. }
  by rewrite Hex.
Qed.

(** X9. A pattern that occurs in the text of the link alone, or in its
    URL without scheme and host alone, in whatever case, is enough for the
    priority 100. *)
Theorem keyword_in_either_part (link : Link) (pattern : string) :
  pattern ∈ FormSpider.priority_patterns →
  occurs_in pattern (lower (link_text link))
  ∨ occurs_in pattern (lower (relative_url (link_url link))) →
  FormSpider.link_priority link = 100%Z.
Proof.
  intros Hin Hoccurs. apply (link_priority_100 link pattern Hin).
  rewrite !lower_app. destruct Hoccurs as [Htext|Hurl].
  - by apply occurs_in_app_r, occurs_in_app_r.
  - by apply occurs_in_app_l.
Qed.

Lemma keyword_in_either_part_sample :
  FormSpider.link_priority (Samples.link "/members" "" "Create an ACCOUNT")
  = 100%Z.
Proof.
  apply (keyword_in_either_part
           (Samples.link "/members" "" "Create an ACCOUNT") "account").
  - compute_done.
  - left. by exists "create an ", "".
Defined.

(** X10. The priority of a link does not depend on the case of its text
    nor on that of its path: lower-casing either leaves it unchanged. *)
Theorem link_priority_ignores_case (link : Link) :
  FormSpider.link_priority link
  = FormSpider.link_priority
      {| link_url := link_url link; link_text := lower (link_text link) |}
  ∧ FormSpider.link_priority link
    = FormSpider.link_priority
        {| link_url :=
             {| scheme := scheme (link_url link);
                netloc := netloc (link_url link);
                Text.path := lower (Text.path (link_url link));
                query := query (link_url link);
                fragment := fragment (link_url link) |};
           link_text := link_text link |}.
Proof.
  unfold FormSpider.link_priority. simpl link_url. simpl link_text.
  change (join " " [?a; ?b]) with (a ++ " " ++ b).
  split.
  - by rewrite !lower_app, lower_twice.
  - rewrite !relative_url_parts. simpl.
    by rewrite !lower_app, lower_twice.
Qed.

(** *** More on [login_params] *)

Section MoreLoginParams.
Context {Form : Type} `{FormElement Form}.
Variable urljoin : string -> option string -> string.
Implicit Types (f : Form) (meta : Meta).

Lemma login_params_not_None url username password meta f f'
    username_field password_field :
  scan_fields (fields meta) = (Some username_field, Some password_field) →
  login_params urljoin url username password meta f ≠ (Ok None, f').
Proof.
  intros Hscan. unfold login_params. rewrite Hscan. unfold bind at 1.
  destruct (check_checkboxes (fields meta) f) as [[[]|e] f1]; [|done].
  unfold bind at 1. unfold assign at 1.
  destruct (fields_set f1 username_field username) as [f2|e]; [|done].
  unfold bind at 1. unfold assign at 1.
  destruct (fields_set f2 password_field password) as [f3|e]; [|done].
  unfold bind at 1. unfold read at 1. unfold bind at 1.
  destruct (append_submits (fields meta) _ f3) as [[sv|e] f4]; [|done].
  unfold bind, read, ret. done.
Qed.

Lemma check_checkboxes_raise (fields_ : list (string * string)) f e f' :
  check_checkboxes fields_ f = (Raise e, f') →
  e ≠ ValueError
  ∧ ∃ name t,
      (name, t) ∈ fields_ ∧ t ∈ CHECK_CHECKBOXES
      ∧ fields_set f' name "on" = Raise e.
Proof.
  revert f. induction fields_ as [|[n t] rest IH]; intros f; [done|].
  destruct (decide (t ∈ CHECK_CHECKBOXES)) as [Ht|Ht].
  - rewrite check_checkboxes_tick by done.
    destruct (fields_set f n "on") as [f1|e1] eqn:Hset.
    + intros (Hne & name & t' & Hin & Ht' & Hraise)%IH.
      split; [done|]. exists name, t'. split_and!; [by right | done..].
    + assert (Hcases : e1 = ValueError ∨ e1 ≠ ValueError)
        by (destruct e1; auto).
      destruct Hcases as [->|Hne].
      * intros (Hne & name & t' & Hin & Ht' & Hraise)%IH.
        split; [done|]. exists name, t'. split_and!; [by right | done..].
      * intros Hraise.
        assert (Heq : (Raise e, f') = (Raise e1, f)) by (by destruct e1).
        injection Heq as -> ->. split; [done|].
        exists n, t. split_and!; [by left | done..].
  - rewrite check_checkboxes_skip by done.
    intros (Hne & name & t' & Hin & Ht' & Hraise)%IH.
    split; [done|]. exists name, t'. split_and!; [by right | done..].
Qed.

End MoreLoginParams.

(** X11. [login_params] returns [None] exactly when the classification
    has no field of a username type or no field of the password type, and
    it then leaves the form as it found it. *)
Theorem login_params_None_iff {Form : Type} `{FormElement Form}
    (urljoin : string -> option string -> string)
    (url : option string) (username password : string) (meta : Meta)
    (f : Form) :
  ((∃ f', login_params urljoin url username password meta f = (Ok None, f'))
   ↔ (∀ n t, (n, t) ∈ fields meta → t ∉ USERNAME_FIELD_TYPES)
     ∨ (∀ n t, (n, t) ∈ fields meta → t ∉ PASSWORD_FIELD_TYPES))
  ∧ (∀ f', login_params urljoin url username password meta f = (Ok None, f')
           → f' = f).
Proof.
  assert (Hmissing :
    ∀ f', login_params urljoin url username password meta f = (Ok None, f') →
          last_of_type USERNAME_FIELD_TYPES (fields meta) = None
          ∨ last_of_type PASSWORD_FIELD_TYPES (fields meta) = None).
  { intros f' Hcall.
    destruct (last_of_type USERNAME_FIELD_TYPES (fields meta)) as [u|] eqn:Hu;
      [|by left].
    destruct (last_of_type PASSWORD_FIELD_TYPES (fields meta)) as [p|] eqn:Hp;
      [|by right].
    destruct (login_params_not_None urljoin url username password meta f f' u p);
      [|done].
    by rewrite scan_fields_last, Hu, Hp. }
  split.
  - split.
    + intros [f' Hcall]. rewrite <- !last_of_type_None. by apply (Hmissing f').
    + intros Hnone. exists f. by apply login_params_missing_field.
  - intros f' Hcall. pose proof (Hmissing f' Hcall) as Hnone.
    rewrite (login_params_None urljoin url username password meta f Hnone)
      in Hcall.
    by injection Hcall.
Qed.

(** X12. The loop over the checkboxes never ends with a [ValueError]: an
    error that leaves it is another error, raised by the assignment of
    "on" to a field typed as a checkbox, on the form as the loop leaves
    it. *)
Theorem checkbox_loop_errors {Form : Type} `{FormElement Form}
    (fields_ : list (string * string)) (f f' : Form) (e : exn) :
  check_checkboxes fields_ f = (Raise e, f') →
  e ≠ ValueError
  ∧ ∃ name t,
      (name, t) ∈ fields_ ∧ t ∈ CHECK_CHECKBOXES
      ∧ fields_set f' name "on" = Raise e.
Proof. apply check_checkboxes_raise. Qed.

(** X12 on the sample form, with a checkbox that the form does not
    have. *)
Lemma checkbox_loop_errors_sample :
  KeyError ≠ ValueError
  ∧ ∃ name t,
      (name, t) ∈ [("keep", "remember me checkbox");
                   ("stay", "remember me checkbox")]
      ∧ t ∈ CHECK_CHECKBOXES
      ∧ fields_set
          (snd (check_checkboxes
                  [("keep", "remember me checkbox");
                   ("stay", "remember me checkbox")]
                  Samples.login_form))
          name "on"
        = Raise KeyError.
Proof.
  apply (checkbox_loop_errors
           [("keep", "remember me checkbox"); ("stay", "remember me checkbox")]
           Samples.login_form).
  vm_compute. reflexivity.
Defined.

(** *** Settings and [crawl_runner] *)

Section SettingsFacts.
Import Settings.
Implicit Types (s : gmap string (Z * Value)) (p : Z).

Lemma getitem_set_other s n v p name :
  name ≠ n → getitem (set s n v p) name = getitem s name.
Proof.
  intros Hne. unfold getitem, set.
  destruct (s !! n) as [[q w]|]; [destruct (q <=? p)%Z|];
    by rewrite ?lookup_insert_ne.
Qed.

Lemma getitem_set_same s n v p :
  at_most p s → getitem (set s n v p) n = Some v.
Proof.
  intros Hmost. unfold getitem, set.
  destruct (s !! n) as [[q w]|] eqn:Hn.
  - rewrite (proj2 (Z.leb_le q p)) by (by apply (Hmost n q w)).
    by rewrite lookup_insert_eq.
  - by rewrite lookup_insert_eq.
Qed.

Lemma at_most_set s n v p : at_most p s → at_most p (set s n v p).
Proof.
  intros Hmost m q w. unfold set.
  destruct (s !! n) as [[q' w']|]; [destruct (q' <=? p)%Z|];
    try apply Hmost;
    (destruct (decide (n = m)) as [->|Hne];
     [rewrite lookup_insert_eq; intros [= <- <-]; lia
     |rewrite lookup_insert_ne by done; apply Hmost]).
Qed.

Lemma at_most_mono s p p' : (p ≤ p')%Z → at_most p s → at_most p' s.
Proof. intros Hle Hmost n q v Hn. specialize (Hmost n q v Hn). lia. Qed.

Lemma at_most_update s (values : list (string * Value)) p :
  at_most p s → at_most p (update s values p).
Proof.
  unfold update. revert s.
  induction values as [|[n v] values IH]; intros s Hmost; [done|].
  simpl. apply IH. by apply at_most_set.
Qed.

Lemma getitem_update_other s (values : list (string * Value)) p name :
  name ∉ values.*1 → getitem (update s values p) name = getitem s name.
Proof.
  unfold update. revert s.
  induction values as [|[n v] values IH]; intros s Hnotin; [done|].
  rewrite fmap_cons, not_elem_of_cons in Hnotin. destruct Hnotin as [Hne Hnotin].
  simpl. rewrite IH by done. by apply getitem_set_other.
Qed.

Lemma getitem_update_same s (values : list (string * Value)) p name v :
  at_most p s → NoDup values.*1 → (name, v) ∈ values →
  getitem (update s values p) name = Some v.
Proof.
  unfold update. revert s.
  induction values as [|[n w] values IH]; intros s Hmost Hnodup Hin.
  - by apply elem_of_nil in Hin.
  - rewrite fmap_cons, NoDup_cons in Hnodup. destruct Hnodup as [Hnotin Hnodup].
    simpl. apply elem_of_cons in Hin as [[= -> ->]|Hin].
    + fold (update (set s n w p) values p).
      rewrite getitem_update_other by done. by apply getitem_set_same.
    + apply IH; [by apply at_most_set | done..].
Qed.

End SettingsFacts.

Section CrawlRunnerFacts.
Import Settings.
Variable default_settings : list (string * Value).

Lemma base_settings_at_most : at_most project (base_settings default_settings).
Proof.
  unfold base_settings. apply at_most_update.
  apply (at_most_mono _ default_priority); [done|].
  apply at_most_update. intros n q v Hn. by rewrite lookup_empty in Hn.
Qed.

Lemma crawl_runner_None_at_most splash_url :
  at_most project (crawl_runner default_settings splash_url None).
Proof.
  unfold crawl_runner. cbv zeta. pose proof base_settings_at_most as Hbase.
  destruct splash_url as [url|]; [destruct (truthy url)|];
    repeat (first [exact Hbase | apply at_most_set]).
Qed.

Lemma crawl_runner_None_other splash_url name :
  name ≠ "SPLASH_URL" → name ≠ "DUPEFILTER_CLASS" →
  name ≠ "DOWNLOADER_MIDDLEWARES" →
  getitem (crawl_runner default_settings splash_url None) name
  = getitem (base_settings default_settings) name.
Proof.
  intros H1 H2 H3. unfold crawl_runner. cbv zeta.
  destruct splash_url as [url|]; [destruct (truthy url)|];
    by rewrite !getitem_set_other.
Qed.

Lemma crawl_runner_None_middlewares splash_url :
  getitem (crawl_runner default_settings splash_url None)
    "DOWNLOADER_MIDDLEWARES"
  = Some (VDict (if with_splash splash_url
                 then splash_middlewares else plain_middlewares)).
Proof.
  unfold crawl_runner, with_splash. cbv zeta.
  pose proof base_settings_at_most as Hbase.
  destruct splash_url as [url|]; [destruct (truthy url)|];
    apply getitem_set_same; repeat (first [exact Hbase | apply at_most_set]).
Qed.

Lemma crawl_runner_None_splash_url splash_url :
  getitem (crawl_runner default_settings splash_url None) "SPLASH_URL"
  = match splash_url with
    | Some url =>
        if truthy url then Some (VStr url)
        else getitem (base_settings default_settings) "SPLASH_URL"
    | None => getitem (base_settings default_settings) "SPLASH_URL"
    end.
Proof.
  unfold crawl_runner. cbv zeta. pose proof base_settings_at_most as Hbase.
  destruct splash_url as [url|]; [destruct (truthy url)|].
  - rewrite !getitem_set_other by done. by apply getitem_set_same.
  - by rewrite getitem_set_other.
  - by rewrite getitem_set_other.
Qed.

Lemma base_settings_unset name :
  name ∉ default_settings.*1 → name ∉ base_values.*1 →
  getitem (base_settings default_settings) name = None.
Proof.
  intros Hd Hb. unfold base_settings.
  rewrite !getitem_update_other by done. unfold getitem.
  by rewrite lookup_empty.
Qed.

End CrawlRunnerFacts.

(** X14. Whatever the settings Scrapy ships with, the runner made
    without extra settings has the cookies middleware of Scrapy switched
    off; with a Splash address it has the two Splash middlewares and not
    the one that exposes cookies, and without one, an empty address
    included, it has the one that exposes cookies and not those of
    Splash. *)
Theorem crawl_runner_middlewares
    (default_settings : list (string * Settings.Value))
    (splash_url : option string) :
  ∃ d : gmap string (option Z),
    Settings.getitem (crawl_runner default_settings splash_url None)
      "DOWNLOADER_MIDDLEWARES"
    = Some (Settings.VDict d)
    ∧ d !! "scrapy.downloadermiddlewares.cookies.CookiesMiddleware" = Some None
    ∧ d !! "scrapy_splash.SplashCookiesMiddleware"
      = (if with_splash splash_url then Some (Some 723%Z) else None)
    ∧ d !! "scrapy_splash.SplashMiddleware"
      = (if with_splash splash_url then Some (Some 725%Z) else None)
    ∧ d !! "autologin.middleware.ExposeCookiesMiddleware"
      = (if with_splash splash_url then None else Some (Some 700%Z)).
Proof.
  exists (if with_splash splash_url then splash_middlewares else plain_middlewares).
  split; [apply crawl_runner_None_middlewares|].
  destruct (with_splash splash_url); vm_compute; by split_and!.
Qed.

(** X15. The values of [base_settings] win over the settings Scrapy
    ships with, and the runner made without extra settings differs from
    [base_settings] in three settings at most: the middlewares, and with a
    Splash address the address and the duplicate filter. *)
Theorem crawl_runner_changes_three_settings
    (default_settings : list (string * Settings.Value))
    (splash_url : option string) :
  (∀ name v, (name, v) ∈ base_values →
     Settings.getitem (base_settings default_settings) name = Some v)
  ∧ (∀ name,
       name ≠ "SPLASH_URL" → name ≠ "DUPEFILTER_CLASS" →
       name ≠ "DOWNLOADER_MIDDLEWARES" →
       Settings.getitem (crawl_runner default_settings splash_url None) name
       = Settings.getitem (base_settings default_settings) name)
  ∧ (with_splash splash_url = false →
     ∀ name, name ≠ "DOWNLOADER_MIDDLEWARES" →
       Settings.getitem (crawl_runner default_settings splash_url None) name
       = Settings.getitem (base_settings default_settings) name)
  ∧ (∀ url, splash_url = Some url → truthy url = true →
       Settings.getitem (crawl_runner default_settings splash_url None)
         "SPLASH_URL"
       = Some (Settings.VStr url)).
Proof.
  split_and!.
  - intros name v Hin. unfold base_settings.
    apply getitem_update_same; [|compute_done|done].
    apply (at_most_mono _ Settings.default_priority); [done|].
    apply at_most_update. intros n q w Hn. by rewrite lookup_empty in Hn.
  - intros name. apply crawl_runner_None_other.
  - intros Hsplash name Hname. unfold crawl_runner. cbv zeta.
    destruct splash_url as [url|]; simpl in Hsplash; rewrite ?Hsplash;
      by rewrite getitem_set_other.
  - intros url -> Hurl. rewrite crawl_runner_None_splash_url. by rewrite Hurl.
Qed.

(** X16. Every extra setting is the value of its name in the settings
    of the runner, whatever [base_settings] and Scrapy say of that name,
    and the names that the extra settings leave out are set as without
    them. *)
Theorem crawl_runner_extra_settings_win
    (default_settings : list (string * Settings.Value))
    (splash_url : option string)
    (extra_settings : list (string * Settings.Value)) :
  NoDup extra_settings.*1 →
  (∀ name v, (name, v) ∈ extra_settings →
     Settings.getitem
       (crawl_runner default_settings splash_url (Some extra_settings)) name
     = Some v)
  ∧ (∀ name, name ∉ extra_settings.*1 →
       Settings.getitem
         (crawl_runner default_settings splash_url (Some extra_settings)) name
       = Settings.getitem
           (crawl_runner default_settings splash_url None) name).
Proof.
  intros Hnodup.
  assert (Hrun : crawl_runner default_settings splash_url (Some extra_settings)
                 = Settings.update
                     (crawl_runner default_settings splash_url None)
                     extra_settings Settings.cmdline) by reflexivity.
  rewrite Hrun. split.
  - intros name v Hin. apply getitem_update_same; [|done..].
    apply (at_most_mono _ Settings.project); [done|].
    apply crawl_runner_None_at_most.
  - intros name Hnotin. by apply getitem_update_other.
Qed.

(** X16 with a depth limit and a user agent given as extra settings. *)
Lemma crawl_runner_extra_settings_sample :
  Settings.getitem
    (crawl_runner [("DEPTH_LIMIT", Settings.VInt 0)] (Some "http://splash:8050")
       (Some [("DEPTH_LIMIT", Settings.VInt 1);
              ("USER_AGENT", Settings.VStr "bot")]))
    "DEPTH_LIMIT"
  = Some (Settings.VInt 1).
Proof.
  apply (proj1 (crawl_runner_extra_settings_win
                  [("DEPTH_LIMIT", Settings.VInt 0)] (Some "http://splash:8050")
                  [("DEPTH_LIMIT", Settings.VInt 1);
                   ("USER_AGENT", Settings.VStr "bot")]
                  ltac:(compute_done))).
  by left.
Defined.

(** *** The start requests *)

Section StartRequestsFacts.
Import BaseSpider.
Variable refuses : Class_ → list Arg → gmap string Arg → option exn.
Variable read_directive : string → result string.

Lemma build_Ok cls args_ kwargs_ request :
  build refuses cls args_ kwargs_ = Ok request
  ↔ refuses cls args_ kwargs_ = None
    ∧ request = {| class := cls; args := args_; kwargs := kwargs_ |}.
Proof.
  unfold build. destruct (refuses cls args_ kwargs_).
  - split; [done | by intros [? _]].
  - split; [by intros [= <-] | by intros [_ ->]].
Qed.

Lemma build_Raise cls args_ kwargs_ e :
  build refuses cls args_ kwargs_ = Raise e
  ↔ refuses cls args_ kwargs_ = Some e.
Proof.
  unfold build. destruct (refuses cls args_ kwargs_).
  - split; by intros [= <-].
  - done.
Qed.

(** What a loop of [yield]s leaves: the results up to the first call that
    raises. *)
Lemma yield_each_spec {A B : Type} (f : A → result B) (l : list A)
    (yielded : list B) (raised : option exn) :
  yield_each f l = (yielded, raised) →
  Forall2 (λ a b, f a = Ok b) (take (length yielded) l) yielded
  ∧ match raised with
    | None => length yielded = length l
    | Some e => ∃ a, l !! length yielded = Some a ∧ f a = Raise e
    end.
Proof.
  revert yielded. induction l as [|a rest IH]; intros yielded; simpl.
  - intros [= <- <-]. split; [constructor | done].
  - destruct (f a) as [b|e] eqn:Hfa.
    + destruct (yield_each f rest) as [ys r] eqn:Hrest.
      intros [= <- <-]. destruct (IH ys eq_refl) as [Hall Hend].
      split; [by constructor|]. simpl. destruct r as [e|]; [done|].
      by rewrite Hend.
    + intros [= <- <-]. split; [constructor|]. by exists a.
Qed.

Lemma yield_each_build (expected : string → Request) (urls : list string)
    (f : string → result Request) requests error :
  (∀ url, f url = build refuses (class (expected url)) (args (expected url))
                    (kwargs (expected url))) →
  yield_each f urls = (requests, error) →
  yields refuses expected urls requests error.
Proof.
  intros Hf Hrun. apply yield_each_spec in Hrun as [Hall Hend].
  assert (Hsame : ∀ url, {| class := class (expected url);
                            args := args (expected url);
                            kwargs := kwargs (expected url) |}
                         = expected url)
    by (intros url; by destruct (expected url)).
  split_and!.
  - clear Hend. revert Hall. generalize (take (length requests) urls).
    intros l Hall. induction Hall as [|url b l bs Hb _ IH]; [done|].
    rewrite Hf in Hb. apply build_Ok in Hb as [_ ->].
    rewrite fmap_cons, Hsame. by f_equal.
  - clear Hend. revert Hall. generalize (take (length requests) urls).
    intros l Hall url Hurl.
    induction Hall as [|url' b l bs Hb _ IH]; [by apply elem_of_nil in Hurl|].
    apply elem_of_cons in Hurl as [->|Hurl]; [|by apply IH].
    rewrite Hf in Hb. by apply build_Ok in Hb as [? _].
  - destruct error as [e|]; [|done]. destruct Hend as (url & Hurl & Hraise).
    exists url. split; [done|]. rewrite Hf in Hraise.
    by apply build_Raise.
Qed.

Lemma splash_request_start lua url :
  splash_request refuses lua [Plain (AStr url)]
    {[ "callback" := Plain (ACallback "parse") ]}
  = build refuses SplashRequest [Plain (AStr url)]
      {[ "args" := Dict {[ "lua_source" := AStr lua ]};
         "endpoint" := Plain (AStr "execute");
         "callback" := Plain (ACallback "parse") ]}.
Proof. reflexivity. Qed.

Lemma start_requests_using self :
  (start_requests refuses read_directive self).1
  = Settings.enabled (settings self) "SPLASH_URL".
Proof.
  unfold start_requests.
  destruct (Settings.enabled (settings self) "SPLASH_URL"); [|done].
  by destruct (read_directive (lua_source self)).
Qed.

End StartRequestsFacts.

(** X17. [splash_request] raises [TypeError] when the caller passes
    [args] that are not a dictionary. Otherwise it calls the class of
    Splash requests with the positional arguments it was given and with
    keyword arguments that hold the endpoint [execute] whatever endpoint
    the caller asked for, the Lua source under [lua_source] in [args]
    whatever the caller put there, and every other entry of [args] and
    every other keyword argument as the caller gave them: it returns the
    request built from them, or raises the error of the class when the
    class refuses them. *)
Theorem splash_request_spec
    (refuses : BaseSpider.Class_ → list BaseSpider.Arg
               → gmap string BaseSpider.Arg → option exn)
    (lua_source : string)
    (args : list BaseSpider.Arg) (kwargs : gmap string BaseSpider.Arg) :
  (∀ a, kwargs !! "args" = Some (BaseSpider.Plain a) →
     BaseSpider.splash_request refuses lua_source args kwargs
     = Raise TypeError)
  ∧ ((∀ a, kwargs !! "args" ≠ Some (BaseSpider.Plain a)) →
     ∃ passed,
       passed_on lua_source kwargs passed
       ∧ BaseSpider.splash_request refuses lua_source args kwargs
         = match refuses BaseSpider.SplashRequest args passed with
           | Some e => Raise e
           | None => Ok {| BaseSpider.class := BaseSpider.SplashRequest;
                           BaseSpider.args := args;
                           BaseSpider.kwargs := passed |}
           end).
Proof.
  unfold BaseSpider.splash_request.
  rewrite lookup_insert_ne by done.
  destruct (kwargs !! "args") as [[a|given]|] eqn:Hargs.
  - split; [done|]. intros Hdict. by destruct (Hdict a).
  - split; [done|]. intros _. eexists. split; [|reflexivity].
    unfold passed_on. rewrite Hargs. split_and!.
    + rewrite lookup_insert_ne by done. by rewrite lookup_insert_eq.
    + exists (<["lua_source" := BaseSpider.AStr lua_source]> given).
      split_and!.
      * by rewrite lookup_insert_eq.
      * by rewrite lookup_insert_eq.
      * intros k Hk. by rewrite lookup_insert_ne.
    + intros k Hk1 Hk2. by rewrite !lookup_insert_ne.
  - split; [done|]. intros _. eexists. split; [|reflexivity].
    unfold passed_on. rewrite Hargs. split_and!.
    + rewrite lookup_insert_ne by done. by rewrite lookup_insert_eq.
    + exists {[ "lua_source" := BaseSpider.AStr lua_source ]}.
      split_and!.
      * by rewrite lookup_insert_eq.
      * by rewrite lookup_singleton_eq.
      * intros k Hk. by rewrite lookup_singleton_ne.
    + intros k Hk1 Hk2. by rewrite !lookup_insert_ne.
Qed.

(** A caller that passes a timeout under [args] and asks for another
    endpoint, and a class that refuses the URL. *)
Example splash_request_keeps_args :
  BaseSpider.splash_request MoreSamples.needs_scheme "function main() end"
    [BaseSpider.Plain (BaseSpider.AStr "http://x.com/")]
    {[ "endpoint" := BaseSpider.Plain (BaseSpider.AStr "render.html");
       "args" := BaseSpider.Dict {[ "timeout" := BaseSpider.AInt 30 ]} ]}
  = Ok {| BaseSpider.class := BaseSpider.SplashRequest;
          BaseSpider.args := [BaseSpider.Plain (BaseSpider.AStr "http://x.com/")];
          BaseSpider.kwargs :=
            {[ "endpoint" := BaseSpider.Plain (BaseSpider.AStr "execute");
               "args" :=
                 BaseSpider.Dict
                   {[ "timeout" := BaseSpider.AInt 30;
                      "lua_source" :=
                        BaseSpider.AStr "function main() end" ]} ]} |}.
Proof. vm_compute. reflexivity. Qed.

Example splash_request_refused :
  BaseSpider.splash_request MoreSamples.needs_scheme "function main() end"
    [BaseSpider.Plain (BaseSpider.AStr "x.com")] ∅
  = Raise ValueError.
Proof. vm_compute. reflexivity. Qed.

(** X18. [start_requests] with a Splash address in the settings first
    reads the Lua file of the spider, and an error of this reading ends it
    before any request is yielded. Otherwise it yields one request for
    each start URL, in order, with the URL as only positional argument and
    [parse] as callback, up to the first URL that the request class
    refuses, whose error then ends it: Splash requests to the endpoint
    [execute] that carry the text of the Lua file when the settings hold a
    Splash address, and plain requests with no other argument when they
    hold none or an empty one. *)
Theorem start_requests_spec
    (refuses : BaseSpider.Class_ → list BaseSpider.Arg
               → gmap string BaseSpider.Arg → option exn)
    (read_directive : string → result string)
    (self : BaseSpider.t) :
  let using_splash :=
    Settings.enabled (BaseSpider.settings self) "SPLASH_URL" in
  let callback := BaseSpider.Plain (BaseSpider.ACallback "parse") in
  ∃ requests error,
    BaseSpider.start_requests refuses read_directive self
    = (using_splash, (requests, error))
    ∧ if using_splash
      then
        match read_directive (BaseSpider.lua_source self) with
        | Raise e => requests = [] ∧ error = Some e
        | Ok lua =>
            yields refuses
              (λ url,
                 {| BaseSpider.class := BaseSpider.SplashRequest;
                    BaseSpider.args := [BaseSpider.Plain (BaseSpider.AStr url)];
                    BaseSpider.kwargs :=
                      {[ "args" :=
                           BaseSpider.Dict
                             {[ "lua_source" := BaseSpider.AStr lua ]};
                         "endpoint" :=
                           BaseSpider.Plain (BaseSpider.AStr "execute");
                         "callback" := callback ]} |})
              (BaseSpider.start_urls self) requests error
        end
      else
        yields refuses
          (λ url,
             {| BaseSpider.class := BaseSpider.ScrapyRequest;
                BaseSpider.args := [BaseSpider.Plain (BaseSpider.AStr url)];
                BaseSpider.kwargs := {[ "callback" := callback ]} |})
          (BaseSpider.start_urls self) requests error.
Proof.
  intros using_splash callback. unfold BaseSpider.start_requests.
  fold using_splash. destruct using_splash.
  - destruct (read_directive (BaseSpider.lua_source self)) as [lua|e].
    + destruct (BaseSpider.yield_each _ (BaseSpider.start_urls self))
        as [requests error] eqn:Hrun.
      exists requests, error. split; [done|].
      eapply yield_each_build; [|exact Hrun].
      intros url. apply splash_request_start.
    + by exists [], (Some e).
  - destruct (BaseSpider.yield_each _ (BaseSpider.start_urls self))
      as [requests error] eqn:Hrun.
    exists requests, error. split; [done|].
    eapply yield_each_build; [|exact Hrun]. done.
Qed.

(** Three start URLs, the second without a scheme: one request is
    yielded and the [ValueError] ends the generator; and a Lua file that
    cannot be read. *)
Example start_requests_stop :
  BaseSpider.start_requests MoreSamples.needs_scheme
    (λ _, Ok "function main() end")
    {| BaseSpider.lua_source := "login.lua";
       BaseSpider.start_urls := ["http://x.com/"; "x.com/login"; "http://y.com/"];
       BaseSpider.settings := ∅ |}
  = (false,
     ([ {| BaseSpider.class := BaseSpider.ScrapyRequest;
           BaseSpider.args := [BaseSpider.Plain (BaseSpider.AStr "http://x.com/")];
           BaseSpider.kwargs :=
             {[ "callback" :=
                  BaseSpider.Plain (BaseSpider.ACallback "parse") ]} |} ],
      Some ValueError)).
Proof. vm_compute. reflexivity. Qed.

Example start_requests_unreadable :
  BaseSpider.start_requests MoreSamples.needs_scheme
    (λ _, Raise (Error "IOError"))
    {| BaseSpider.lua_source := "login.lua";
       BaseSpider.start_urls := ["http://x.com/"];
       BaseSpider.settings :=
         {[ "SPLASH_URL" :=
              (Settings.project, Settings.VStr "http://splash:8050") ]} |}
  = (true, ([], Some (Error "IOError"))).
Proof. vm_compute. reflexivity. Qed.

(** X19. A spider started with the settings of [crawl_runner] uses Splash
    exactly when [crawl_runner] was given a non-empty Splash address,
    provided neither the settings Scrapy ships with nor the extra settings
    name [SPLASH_URL]. *)
Theorem using_splash_follows_splash_url
    (refuses : BaseSpider.Class_ → list BaseSpider.Arg
               → gmap string BaseSpider.Arg → option exn)
    (read_directive : string → result string)
    (default_settings : list (string * Settings.Value))
    (splash_url : option string)
    (extra_settings : option (list (string * Settings.Value)))
    (lua_source : string) (start_urls : list string) :
  "SPLASH_URL" ∉ default_settings.*1 →
  "SPLASH_URL" ∉ (default [] extra_settings).*1 →
  fst (BaseSpider.start_requests refuses read_directive
         {| BaseSpider.lua_source := lua_source;
            BaseSpider.start_urls := start_urls;
            BaseSpider.settings :=
              crawl_runner default_settings splash_url extra_settings |})
  = with_splash splash_url.
Proof.
  intros Hdefault Hextra. rewrite start_requests_using. simpl.
  unfold Settings.enabled.
  assert (Hget : Settings.getitem
            (crawl_runner default_settings splash_url extra_settings)
            "SPLASH_URL"
          = Settings.getitem (crawl_runner default_settings splash_url None)
              "SPLASH_URL").
  { destruct extra_settings as [extra|]; [|done].
    change (crawl_runner default_settings splash_url (Some extra))
      with (Settings.update (crawl_runner default_settings splash_url None)
              extra Settings.cmdline).
    by apply getitem_update_other. }
  rewrite Hget, crawl_runner_None_splash_url.
  rewrite (base_settings_unset default_settings "SPLASH_URL")
    by (done || compute_done).
  unfold with_splash. destruct splash_url as [url|]; [|done].
  by destruct (truthy url) eqn:Hurl; simpl; rewrite ?Hurl.
Qed.

(** X19 with an empty Splash address: no Splash. *)
Lemma using_splash_sample :
  fst (BaseSpider.start_requests MoreSamples.needs_scheme
         (λ _, Ok "function main(splash) end")
         {| BaseSpider.lua_source := "login.lua";
            BaseSpider.start_urls := ["http://x.com/"];
            BaseSpider.settings :=
              crawl_runner [] (Some "")
                (Some [("DEPTH_LIMIT", Settings.VInt 1)]) |})
  = false.
Proof.
  apply (using_splash_follows_splash_url MoreSamples.needs_scheme
           (λ _, Ok "function main(splash) end")
           [] (Some "") (Some [("DEPTH_LIMIT", Settings.VInt 1)])
           "login.lua" ["http://x.com/"]).
  - compute_done.
  - compute_done.
Defined.

(** *** The further properties on sample data *)

(** X4 on two responses that show the same two cookies in different
    orders, one of them twice. *)
Lemma verdict_ignores_order_sample :
  succeeded (LoginSpider.parse_login Samples.env Samples.spider
    (Samples.page [] (Some [Samples.sid; MoreSamples.csrf])
       [Samples.sid; MoreSamples.csrf]))
  = succeeded (LoginSpider.parse_login Samples.env Samples.spider
      (Samples.page [] (Some [MoreSamples.csrf; Samples.sid; Samples.sid])
         [MoreSamples.csrf; Samples.sid])).
Proof.
  apply (verdict_ignores_order Samples.env Samples.spider
           (Samples.page [] (Some [Samples.sid; MoreSamples.csrf])
              [Samples.sid; MoreSamples.csrf])
           (Samples.page [] (Some [MoreSamples.csrf; Samples.sid; Samples.sid])
              [MoreSamples.csrf; Samples.sid])).
  - intros c. simpl. rewrite !elem_of_cons. intuition.
  - intros c. simpl. rewrite !elem_of_cons. intuition.
Defined.

(** X5 from a response that adds [csrf] to [sid], to one that had no
    cookie before. *)
Lemma verdict_monotone_sample :
  succeeded (LoginSpider.parse_login Samples.env Samples.spider
    (Samples.page [] (Some [MoreSamples.csrf; Samples.sid]) []))
  = true.
Proof.
  apply (verdict_monotone Samples.env Samples.spider
           (Samples.page [] (Some [Samples.sid; MoreSamples.csrf])
              [Samples.sid])
           (Samples.page [] (Some [MoreSamples.csrf; Samples.sid]) [])).
  - intros c Hc. by apply elem_of_nil in Hc.
  - intros c. simpl. rewrite !elem_of_cons. intuition.
  - vm_compute. reflexivity.
Defined.


(** X8 after the first page of a crawl, which has a login form. *)
Lemma committed_in_sync_sample :
  default MoreSamples.no_credentials
    (last (FormSpider.committed
             (fst (FormSpider.parse
                     (FormSpider.init MoreSamples.no_credentials)
                     MoreSamples.login_page))))
  = FormSpider.credentials
      (fst (FormSpider.parse (FormSpider.init MoreSamples.no_credentials)
              MoreSamples.login_page)).
Proof.
  apply (committed_in_sync MoreSamples.no_credentials
           [MoreSamples.login_page]).
  simpl. right. left.
Defined.
